(** * Pipeline.cc: the coordinator of the pex_harness pipeline

    A shallow embedding of [Pipeline] (src/Pipeline.cc): the object's
    fields, the MPI calls it makes, and the member functions
    [initializeMPI], [configurePipeline], [startSlices], [invokeShutdown],
    [invokeContinue], [invokeSyncSlices], [invokeProcess] and [shutdown];
    and of the logging set-up of src/LogUtils.cc and
    Pipeline::initializeLogger.

    The MPI library, the logger and the contents of automatic storage are
    the environment ([World]); a member function is a computation over the
    object that appends the calls it makes to a history and either returns,
    leaves the process through [exit], or has no defined behaviour. *)

From Stdlib Require Import ZArith List String Ascii Bool Lia.
From Stdlib Require Import DecimalString DecimalZ.
From ExtLib Require Import Structures.Monad.
Import ListNotations.
Import MonadNotation.

Local Open Scope string_scope.
Local Open Scope list_scope.
Local Open Scope Z_scope.
Local Open Scope monad_scope.

(** ** The C++ [int] *)

Module Int.

Definition min_signed : Z := -2147483648.
Definition max_signed : Z := 2147483647.
Definition modulus : Z := 4294967296.

Definition in_range (z : Z) : Prop := min_signed <= z <= max_signed.

(** Two's complement wrap-around of a mathematical integer. *)
Definition wrap (z : Z) : Z := (z - min_signed) mod modulus + min_signed.

Definition sub (a b : Z) : Z := wrap (a - b).

End Int.

(** ** What mpi.h and the logging package declare *)

Inductive MPI_Comm : Type :=
| MPI_COMM_WORLD
| MPI_COMM_NULL
| Intercomm (handle : Z).

Inductive MPI_Datatype : Type := MPI_CHAR | MPI_INT.

Inductive MPI_Root : Type := MPI_ROOT | Rank (r : Z).

Inductive MPI_Info : Type := MPI_INFO_NULL.

Inductive MPI_Keyval : Type := MPI_UNIVERSE_SIZE.

Definition MPI_SUCCESS : Z := 0.

Inductive LogLevel : Type := INFO.

(** The memory a broadcast reads: [count] elements of the given type. *)
Inductive Payload : Type :=
| Chars (cs : list ascii)
| Ints (zs : list Z).

Inductive Call : Type :=
| MPI_Init
| MPI_Comm_rank (comm : MPI_Comm)
| MPI_Comm_size (comm : MPI_Comm)
| MPI_Attr_get (comm : MPI_Comm) (key : MPI_Keyval)
| MPI_Comm_spawn (command : string) (argv : list string) (maxprocs : Z)
                 (info : MPI_Info) (root : Z) (comm : MPI_Comm)
| MPI_Bcast (buffer : Payload) (count : Z) (datatype : MPI_Datatype)
            (root : MPI_Root) (comm : MPI_Comm)
| MPI_Barrier (comm : MPI_Comm)
| MPI_Finalize.

(** What the process does that is visible outside it, in order. *)
Inductive Event : Type :=
| EvCall (c : Call) (status : Z)
| EvLog (level : LogLevel) (fmt : string) (arg : Z).

(** ** The object *)

Record Pipeline : Type := mkPipeline {
  _pid : Z;
  _evbHost : string;
  _runId : string;
  _policyName : string;
  mpiError : Z;
  rank : Z;
  size : Z;
  universeSize : Z;
  nSlices : Z;
  bufferSize : Z;
  sliceIntercomm : MPI_Comm
}.

Definition set_mpiError (v : Z) (p : Pipeline) : Pipeline :=
  mkPipeline (_pid p) (_evbHost p) (_runId p) (_policyName p) v (rank p)
             (size p) (universeSize p) (nSlices p) (bufferSize p)
             (sliceIntercomm p).

Definition set_rank (v : Z) (p : Pipeline) : Pipeline :=
  mkPipeline (_pid p) (_evbHost p) (_runId p) (_policyName p) (mpiError p) v
             (size p) (universeSize p) (nSlices p) (bufferSize p)
             (sliceIntercomm p).

Definition set_size (v : Z) (p : Pipeline) : Pipeline :=
  mkPipeline (_pid p) (_evbHost p) (_runId p) (_policyName p) (mpiError p)
             (rank p) v (universeSize p) (nSlices p) (bufferSize p)
             (sliceIntercomm p).

Definition set_universeSize (v : Z) (p : Pipeline) : Pipeline :=
  mkPipeline (_pid p) (_evbHost p) (_runId p) (_policyName p) (mpiError p)
             (rank p) (size p) v (nSlices p) (bufferSize p)
             (sliceIntercomm p).

Definition set_nSlices (v : Z) (p : Pipeline) : Pipeline :=
  mkPipeline (_pid p) (_evbHost p) (_runId p) (_policyName p) (mpiError p)
             (rank p) (size p) (universeSize p) v (bufferSize p)
             (sliceIntercomm p).

Definition set_bufferSize (v : Z) (p : Pipeline) : Pipeline :=
  mkPipeline (_pid p) (_evbHost p) (_runId p) (_policyName p) (mpiError p)
             (rank p) (size p) (universeSize p) (nSlices p) v
             (sliceIntercomm p).

Definition set_sliceIntercomm (v : MPI_Comm) (p : Pipeline) : Pipeline :=
  mkPipeline (_pid p) (_evbHost p) (_runId p) (_policyName p) (mpiError p)
             (rank p) (size p) (universeSize p) (nSlices p) (bufferSize p) v.

Definition set_runId (v : string) (p : Pipeline) : Pipeline :=
  mkPipeline (_pid p) (_evbHost p) v (_policyName p) (mpiError p)
             (rank p) (size p) (universeSize p) (nSlices p) (bufferSize p)
             (sliceIntercomm p).

Definition set_policyName (v : string) (p : Pipeline) : Pipeline :=
  mkPipeline (_pid p) (_evbHost p) (_runId p) v (mpiError p)
             (rank p) (size p) (universeSize p) (nSlices p) (bufferSize p)
             (sliceIntercomm p).

(** ** The environment *)

Record World : Type := mkWorld {
  (** the status an MPI call returns, given all that happened before it *)
  mpi_status : list Event -> Call -> Z;
  (** what MPI_Comm_rank and MPI_Comm_size store for MPI_COMM_WORLD *)
  world_rank : Z;
  world_size : Z;
  (** the integer behind the MPI_UNIVERSE_SIZE attribute, when it is set *)
  universe_attr : option Z;
  (** the intercommunicator a successful MPI_Comm_spawn stores *)
  spawned : MPI_Comm;
  (** the byte found at an offset of an automatic array that was declared
      without an initialiser, given all that happened before *)
  automatic : list Event -> nat -> ascii;
  (** Log::getDefaultLog().getThreshold() *)
  log_threshold : Z;
  (** the characters MPI_Comm_spawn finds behind the fourth element of
      argv, lev.c_str(), for a stream lev that holds the given ones *)
  lev_c_str : string -> string
}.

(** ** Computations of the process *)

Record Machine : Type := mkMachine {
  self : Pipeline;
  past : list Event
}.

Inductive Result (A : Type) : Type :=
| Returned (a : A) (m : Machine)
| Exited (code : Z) (t : list Event)
| Undefined (t : list Event).

Arguments Returned {A} a m.
Arguments Exited {A} code t.
Arguments Undefined {A} t.

Definition Proc (A : Type) : Type := World -> Machine -> Result A.

Definition Proc_ret {A} (a : A) : Proc A := fun _ m => Returned a m.

Definition Proc_bind {A B} (c : Proc A) (k : A -> Proc B) : Proc B :=
  fun w m =>
    match c w m with
    | Returned a m' => k a w m'
    | Exited code t => Exited code t
    | Undefined t => Undefined t
    end.

#[global] Instance Monad_Proc : Monad Proc :=
  {| ret := @Proc_ret; bind := @Proc_bind |}.

(** Read a member. *)
Definition this {A} (field : Pipeline -> A) : Proc A :=
  fun _ m => Returned (field (self m)) m.

(** Assign a member. *)
Definition assign {A} (setter : A -> Pipeline -> Pipeline) (v : A) : Proc unit :=
  fun _ m => Returned tt (mkMachine (setter v (self m)) (past m)).

(** Ask the environment. *)
Definition env {A} (q : World -> A) : Proc A :=
  fun w m => Returned (q w) m.

(** An MPI call: it is recorded with the status it returns. *)
Definition mpi (c : Call) : Proc Z :=
  fun w m =>
    let st := mpi_status w (past m) c in
    Returned st (mkMachine (self m) (past m ++ [EvCall c st])).

(** pipelineLog.log(level, boost::format(fmt) % arg) *)
Definition log (level : LogLevel) (fmt : string) (arg : Z) : Proc unit :=
  fun _ m => Returned tt (mkMachine (self m) (past m ++ [EvLog level fmt arg])).

(** exit(code): the rest of the program does not run. *)
Definition exit {A} (code : Z) : Proc A :=
  fun _ m => Exited code (past m).

(** The C++ standard gives the execution no meaning from here on. *)
Definition undefined {A} : Proc A :=
  fun _ m => Undefined (past m).

Definition when (b : bool) (c : Proc unit) : Proc unit :=
  if b then c else ret tt.

Definition run {A} (c : Proc A) (w : World) (p : Pipeline) : Result A :=
  c w (mkMachine p []).

Definition trace {A} (r : Result A) : list Event :=
  match r with
  | Returned _ m => past m
  | Exited _ t => t
  | Undefined t => t
  end.

(** ** Automatic arrays and C strings *)

Definition NUL : ascii := Ascii.zero.

(** [char a[n]]: a variable-length array without initialiser.  A negative
    bound has no defined behaviour; a bound of zero is taken as the GNU
    compilers take it, an array without elements.  The elements hold
    whatever the stack held. *)
Definition char_array (n : Z) : Proc (list ascii) :=
  fun w m =>
    if n <? 0 then Undefined (past m)
    else Returned (map (automatic w (past m)) (seq 0 (Z.to_nat n))) m.

(** [char a[n][k]] *)
Fixpoint char_rows (n : nat) (k : Z) : Proc (list (list ascii)) :=
  match n with
  | O => ret []
  | S n' => r <- char_array k ;; rs <- char_rows n' k ;; ret (r :: rs)
  end.

Definition char_matrix (n k : Z) : Proc (list (list ascii)) :=
  if n <? 0 then undefined else char_rows (Z.to_nat n) k.

(** [int a[n]] *)
Definition int_array (n : Z) : Proc unit :=
  if n <? 0 then undefined else ret tt.

Definition strlen (s : string) : Z := Z.of_nat (String.length s).

(** std::strcpy(dst, src) for a string literal [src]: the characters of
    the literal and the terminator replace the first strlen(src) + 1
    elements of [dst], the others stay; it does not check that they fit,
    and writing beyond the array has no defined behaviour. *)
Definition strcpy (dst : list ascii) (src : string) : Proc (list ascii) :=
  if strlen src + 1 <=? Z.of_nat (List.length dst)
  then ret (list_ascii_of_string src ++ NUL
              :: skipn (String.length src + 1) dst)
  else undefined.

(** The string a char array holds: the characters before the first NUL. *)
Fixpoint c_str (buf : list ascii) : string :=
  match buf with
  | [] => EmptyString
  | c :: rest => if Ascii.eqb c NUL then EmptyString else String c (c_str rest)
  end.

(** operator<< of an int into a stream *)
Definition decimal (z : Z) : string := NilZero.string_of_int (Z.to_int z).

(** ** The member functions *)

(** Pipeline::initializeMPI, lines 73-105 *)
Definition initializeMPI : Proc unit :=
  e <- mpi MPI_Init ;;
  assign set_mpiError e ;;
  err <- this mpiError ;;
  when (negb (err =? MPI_SUCCESS)) (mpi MPI_Finalize ;; exit 1) ;;

  e <- mpi (MPI_Comm_rank MPI_COMM_WORLD) ;;
  r <- env world_rank ;;
  when (e =? MPI_SUCCESS) (assign set_rank r) ;;
  assign set_mpiError e ;;
  err <- this mpiError ;;
  when (negb (err =? MPI_SUCCESS)) (mpi MPI_Finalize ;; exit 1) ;;

  e <- mpi (MPI_Comm_size MPI_COMM_WORLD) ;;
  s <- env world_size ;;
  when (e =? MPI_SUCCESS) (assign set_size s) ;;
  assign set_mpiError e ;;
  err <- this mpiError ;;
  when (negb (err =? MPI_SUCCESS)) (mpi MPI_Finalize ;; exit 1) ;;

  e <- mpi (MPI_Attr_get MPI_COMM_WORLD MPI_UNIVERSE_SIZE) ;;
  universeSizep <- env universe_attr ;;
  assign set_mpiError e ;;
  err <- this mpiError ;;
  when (negb (err =? MPI_SUCCESS)) (mpi MPI_Finalize ;; exit 1) ;;
  (* universeSize = *universeSizep; the flag is not looked at, and the
     pointer was given no value when the attribute is not set *)
  match universeSizep with
  | None => undefined
  | Some u =>
      assign set_universeSize u ;;
      us <- this universeSize ;;
      assign set_nSlices (Int.sub us 1) ;;
      ret tt
  end.

(** Pipeline::configurePipeline, lines 109-112 *)
Definition configurePipeline : Proc unit :=
  assign set_bufferSize 256 ;;
  ret tt.

(** Pipeline::initialize, lines 38-45 *)
Definition initialize : Proc unit :=
  initializeMPI ;;
  configurePipeline ;;
  ret tt.

(** Pipeline::getUniverseSize, lines 116-118 *)
Definition getUniverseSize : Proc Z := this universeSize.

(** Pipeline::startSlices, lines 124-143.  The block from malloc is
    neither used nor freed.

    Line 133 puts lev.c_str() into argv, and std::ostringstream declares no
    member c_str: as it is written the line is ill-formed.  With the
    nearest well-formed expression, lev.str().c_str(), the pointer is into
    a temporary std::string that is destroyed at the end of the declaration
    of argv, before MPI_Comm_spawn reads through it.  Under neither reading
    does the source fix the characters the spawn finds there; they are
    taken from the environment, as a function of what the stream holds. *)
Definition startSlices : Proc unit :=
  threshold <- env log_threshold ;;
  let lev := decimal threshold in
  ns <- this nSlices ;;
  int_array ns ;;
  let myexec := "runSlice.py" in
  policyName <- this _policyName ;;
  runId <- this _runId ;;
  c_str_of <- env lev_c_str ;;
  let argv := [policyName; runId; "-l"; c_str_of lev] in
  e <- mpi (MPI_Comm_spawn myexec argv ns MPI_INFO_NULL 0 MPI_COMM_WORLD) ;;
  comm <- env spawned ;;
  when (e =? MPI_SUCCESS) (assign set_sliceIntercomm comm) ;;
  assign set_mpiError e ;;
  err <- this mpiError ;;
  when (negb (err =? MPI_SUCCESS)) (mpi MPI_Finalize ;; exit 1) ;;
  ret tt.

(** Pipeline::invokeShutdown, lines 147-161 *)
Definition invokeShutdown : Proc unit :=
  bs <- this bufferSize ;;
  procCommand <- char_array bs ;;
  procCommand <- strcpy procCommand "SHUTDOWN" ;;
  bs <- this bufferSize ;;
  comm <- this sliceIntercomm ;;
  e <- mpi (MPI_Bcast (Chars procCommand) bs MPI_CHAR MPI_ROOT comm) ;;
  assign set_mpiError e ;;
  err <- this mpiError ;;
  when (negb (err =? MPI_SUCCESS)) (mpi MPI_Finalize ;; exit 1) ;;
  ret tt.

(** Pipeline::invokeContinue, lines 166-179 *)
Definition invokeContinue : Proc unit :=
  bs <- this bufferSize ;;
  procCommand <- char_array bs ;;
  procCommand <- strcpy procCommand "CONTINUE" ;;
  bs <- this bufferSize ;;
  comm <- this sliceIntercomm ;;
  e <- mpi (MPI_Bcast (Chars procCommand) bs MPI_CHAR MPI_ROOT comm) ;;
  assign set_mpiError e ;;
  err <- this mpiError ;;
  when (negb (err =? MPI_SUCCESS)) (mpi MPI_Finalize ;; exit 1) ;;
  ret tt.

(** Pipeline::invokeSyncSlices, lines 183-211 *)
Definition invokeSyncSlices : Proc unit :=
  r <- this rank ;;
  log INFO "Start invokeSyncSlices: rank %d " r ;;
  r <- this rank ;;
  log INFO "InterSlice Communication Command Bcast rank %d " r ;;

  bs <- this bufferSize ;;
  procCommand <- char_array bs ;;
  procCommand <- strcpy procCommand "SYNC" ;;

  bs <- this bufferSize ;;
  comm <- this sliceIntercomm ;;
  e <- mpi (MPI_Bcast (Chars procCommand) bs MPI_CHAR MPI_ROOT comm) ;;
  assign set_mpiError e ;;
  err <- this mpiError ;;
  when (negb (err =? MPI_SUCCESS)) (mpi MPI_Finalize ;; exit 1) ;;

  r <- this rank ;;
  log INFO "End Bcast rank %d " r ;;

  comm <- this sliceIntercomm ;;
  e <- mpi (MPI_Barrier comm) ;;
  assign set_mpiError e ;;
  err <- this mpiError ;;
  when (negb (err =? MPI_SUCCESS)) (mpi MPI_Finalize ;; exit 1) ;;

  r <- this rank ;;
  log INFO "End invokeSyncSlices rank %d " r.

(** for (int k = 0 ; k < nSlices; k++) std::strcpy(processCommand[k], src) *)
Fixpoint strcpy_rows (rows : list (list ascii)) (src : string)
  : Proc (list (list ascii)) :=
  match rows with
  | [] => ret []
  | r :: rest =>
      r' <- strcpy r src ;;
      rest' <- strcpy_rows rest src ;;
      ret (r' :: rest')
  end.

(** Pipeline::invokeProcess, lines 215-245 *)
Definition invokeProcess (iStage : Z) : Proc unit :=
  ns <- this nSlices ;;
  bs <- this bufferSize ;;
  processCommand <- char_matrix ns bs ;;
  _ <- strcpy_rows processCommand "PROCESS" ;;

  bs <- this bufferSize ;;
  procCommand <- char_array bs ;;

  procCommand <- strcpy procCommand "PROCESS" ;;

  bs <- this bufferSize ;;
  comm <- this sliceIntercomm ;;
  e <- mpi (MPI_Bcast (Chars procCommand) bs MPI_CHAR MPI_ROOT comm) ;;
  assign set_mpiError e ;;
  err <- this mpiError ;;
  when (negb (err =? MPI_SUCCESS)) (mpi MPI_Finalize ;; exit 1) ;;

  comm <- this sliceIntercomm ;;
  e <- mpi (MPI_Bcast (Ints [iStage]) 1 MPI_INT MPI_ROOT comm) ;;
  assign set_mpiError e ;;
  err <- this mpiError ;;
  when (negb (err =? MPI_SUCCESS)) (mpi MPI_Finalize ;; exit 1) ;;

  comm <- this sliceIntercomm ;;
  e <- mpi (MPI_Barrier comm) ;;
  assign set_mpiError e ;;
  err <- this mpiError ;;
  when (negb (err =? MPI_SUCCESS)) (mpi MPI_Finalize ;; exit 1) ;;

  ret tt.

(** Pipeline::shutdown, lines 249-254 *)
Definition shutdown : Proc unit :=
  mpi MPI_Finalize ;;
  exit 0.

(** Pipeline::setRunId and the other accessors, lines 258-280 *)
Definition setRunId (runId : string) : Proc unit := assign set_runId runId.
Definition getRunId : Proc string := this _runId.
Definition setPolicyName (policyName : string) : Proc unit :=
  assign set_policyName policyName.
Definition getPolicyName : Proc string := this _policyName.

(** ** Reading a history *)

(** The MPI calls of a history, in order. *)
Fixpoint calls (t : list Event) : list Call :=
  match t with
  | [] => []
  | EvCall c _ :: rest => c :: calls rest
  | EvLog _ _ _ :: rest => calls rest
  end.

(** Broadcasts and barriers: the operations every process of the
    communicator takes part in. *)
Definition is_collective (c : Call) : bool :=
  match c with
  | MPI_Bcast _ _ _ _ _ => true
  | MPI_Barrier _ => true
  | _ => false
  end.

Definition collectives (t : list Event) : list Call :=
  filter is_collective (calls t).

Definition is_broadcast (c : Call) : bool :=
  match c with
  | MPI_Bcast _ _ _ _ _ => true
  | _ => false
  end.

Definition broadcasts (t : list Event) : list Call :=
  filter is_broadcast (calls t).

(** What a fresh [char a[n]] holds. *)
Definition indeterminate (w : World) (h : list Event) (n : Z) : list ascii :=
  map (automatic w h) (seq 0 (Z.to_nat n)).

(** What [char a[n]; std::strcpy(a, name);] leaves in [a]. *)
Definition command_buffer (w : World) (h : list Event) (n : Z) (name : string)
  : list ascii :=
  list_ascii_of_string name ++ NUL
    :: skipn (String.length name + 1) (indeterminate w h n).

(** ** Sample environments and objects *)

(** Every MPI call succeeds; four slots in the universe. *)
Definition calm : World :=
  mkWorld (fun _ _ => MPI_SUCCESS) 0 1 (Some 4) (Intercomm 1)
          (fun _ _ => "x"%char) 0 (fun lev => lev).

(** As [calm], with another pattern left on the stack. *)
Definition calm' : World :=
  mkWorld (fun _ _ => MPI_SUCCESS) 0 1 (Some 4) (Intercomm 1)
          (fun _ _ => "y"%char) 0 (fun lev => lev).

(** The first MPI call that is made fails. *)
Definition broken : World :=
  mkWorld (fun h _ => match calls h with [] => 13 | _ => MPI_SUCCESS end) 0 1
          (Some 4) (Intercomm 1) (fun _ _ => "x"%char) 0 (fun lev => lev).

(** Every MPI call succeeds and the log threshold is 3, but where the
    fourth element of argv points nothing of the stream is left. *)
Definition stale : World :=
  mkWorld (fun _ _ => MPI_SUCCESS) 0 1 (Some 4) (Intercomm 1)
          (fun _ _ => "x"%char) 3 (fun _ => "").

(** Every MPI call succeeds, and MPI_UNIVERSE_SIZE is not set. *)
Definition unset : World :=
  mkWorld (fun _ _ => MPI_SUCCESS) 0 1 None MPI_COMM_NULL
          (fun _ _ => "x"%char) 0 (fun lev => lev).

(** Every MPI call succeeds, and the universe has no slot. *)
Definition empty : World :=
  mkWorld (fun _ _ => MPI_SUCCESS) 0 1 (Some 0) MPI_COMM_NULL
          (fun _ _ => "x"%char) 0 (fun lev => lev).

(** The object after initialize and startSlices in [calm]. *)
Definition ready : Pipeline :=
  mkPipeline 4242 "" "run0001" "pipeline.paf" MPI_SUCCESS 0 1 4 3 256
             (Intercomm 1).

(** ** The commands and the operations of the coordinator *)

(** The commands Pipeline.cc has a member function for. *)
Inductive Command : Type :=
| CONTINUE
| SHUTDOWN
| SYNC
| PROCESS (iStage : Z).

(** The literal each member function copies into its buffer. *)
Definition command_name (c : Command) : string :=
  match c with
  | CONTINUE => "CONTINUE"
  | SHUTDOWN => "SHUTDOWN"
  | SYNC => "SYNC"
  | PROCESS _ => "PROCESS"
  end.

Definition send (c : Command) : Proc unit :=
  match c with
  | CONTINUE => invokeContinue
  | SHUTDOWN => invokeShutdown
  | SYNC => invokeSyncSlices
  | PROCESS iStage => invokeProcess iStage
  end.

(** The member functions that call MPI and test its status. *)
Inductive Operation : Type :=
| InitializeMPI
| StartSlices
| Send (c : Command).

Definition perform (o : Operation) : Proc unit :=
  match o with
  | InitializeMPI => initializeMPI
  | StartSlices => startSlices
  | Send c => send c
  end.

(** Broadcast SHUTDOWN, then finalize and exit: how a run is ended. *)
Definition shutdownFleet : Proc unit :=
  invokeShutdown ;;
  shutdown.

Definition is_finalize (c : Call) : bool :=
  match c with
  | MPI_Finalize => true
  | _ => false
  end.

(** The events that follow the first MPI call whose status the code tests
    and that did not return MPI_SUCCESS (the status of MPI_Finalize is
    dropped by the code). *)
Fixpoint after_failure (t : list Event) : option (list Event) :=
  match t with
  | [] => None
  | EvCall c st :: rest =>
      if (st =? MPI_SUCCESS) || is_finalize c
      then after_failure rest
      else Some rest
  | EvLog _ _ _ :: rest => after_failure rest
  end.

(** Every MPI call returns MPI_SUCCESS. *)
Definition dependable (w : World) : Prop :=
  forall h c, mpi_status w h c = MPI_SUCCESS.

(** A computation that touches neither the object nor the outside, and
    does not leave the process. *)
Definition inert {A} (c : Proc A) : Prop :=
  forall w m,
    match c w m with
    | Returned _ m' => m' = m
    | Exited _ _ => False
    | Undefined t => t = past m
    end.

(** The history when a call fails: the call, then MPI_Finalize. *)
Definition fatal (w : World) (h : list Event) (c : Call) : list Event :=
  (h ++ [EvCall c (mpi_status w h c)])
    ++ [EvCall MPI_Finalize
          (mpi_status w (h ++ [EvCall c (mpi_status w h c)]) MPI_Finalize)].

(** The machine after a call that succeeded. *)
Definition passed (w : World) (m : Machine) (c : Call) : Machine :=
  mkMachine (set_mpiError (mpi_status w (past m) c) (self m))
            (past m ++ [EvCall c (mpi_status w (past m) c)]).

(** The machine after a message went to the log. *)
Definition logged (m : Machine) (level : LogLevel) (fmt : string) (arg : Z)
  : Machine :=
  mkMachine (self m) (past m ++ [EvLog level fmt arg]).

(** The machine after a call that succeeded and stored a result. *)
Definition stored (w : World) (m : Machine) (c : Call)
           (store : Pipeline -> Pipeline) : Machine :=
  mkMachine (set_mpiError (mpi_status w (past m) c) (store (self m)))
            (past m ++ [EvCall c (mpi_status w (past m) c)]).

(** The call startSlices makes. *)
Definition spawn_call (w : World) (p : Pipeline) : Call :=
  MPI_Comm_spawn "runSlice.py"
                 [_policyName p; _runId p; "-l";
                  lev_c_str w (decimal (log_threshold w))]
                 (nSlices p) MPI_INFO_NULL 0 MPI_COMM_WORLD.

(** The broadcasts of a char buffer: those that carry a command. *)
Definition is_char_broadcast (c : Call) : bool :=
  match c with
  | MPI_Bcast (Chars _) _ _ _ _ => true
  | _ => false
  end.

Definition char_broadcasts (t : list Event) : list Call :=
  filter is_char_broadcast (calls t).

(** What has to hold of the result of an operation that tests MPI's
    status: a failed call is followed by MPI_Finalize alone and exit(1),
    and the process is left in no other way. *)
Definition fails_cleanly (r : Result unit) : Prop :=
  (forall after, after_failure (trace r) = Some after ->
     (exists fin, after = [EvCall MPI_Finalize fin])
     /\ r = Exited 1 (trace r))
  /\ (forall code t, r = Exited code t ->
        code = 1 /\ after_failure t <> None).

(** ** Sequences of calls *)

(** The member functions for a list of commands, called one after the
    other. *)
Fixpoint send_all (cs : list Command) : Proc unit :=
  match cs with
  | [] => ret tt
  | c :: rest => send c ;; send_all rest
  end.

(** What the slices find in the char buffers that were broadcast: the
    string each of them holds, in the order of the broadcasts. *)
Fixpoint names_sent (t : list Event) : list string :=
  match t with
  | [] => []
  | EvCall (MPI_Bcast (Chars buf) _ _ _ _) _ :: rest =>
      c_str buf :: names_sent rest
  | _ :: rest => names_sent rest
  end.

(** The integers that were broadcast, in order. *)
Fixpoint stages_sent (t : list Event) : list Z :=
  match t with
  | [] => []
  | EvCall (MPI_Bcast (Ints zs) _ _ _ _) _ :: rest => zs ++ stages_sent rest
  | _ :: rest => stages_sent rest
  end.

(** The stage indices of the PROCESS commands of a list. *)
Fixpoint stage_indices (cs : list Command) : list Z :=
  match cs with
  | [] => []
  | PROCESS iStage :: rest => iStage :: stage_indices rest
  | _ :: rest => stage_indices rest
  end.

(** The calls of initializeMPI, in the order of the source. *)
Definition bootstrap_calls : list Call :=
  [MPI_Init; MPI_Comm_rank MPI_COMM_WORLD; MPI_Comm_size MPI_COMM_WORLD;
   MPI_Attr_get MPI_COMM_WORLD MPI_UNIVERSE_SIZE].

(** A history of calls that all returned MPI_SUCCESS. *)
Definition succeeded (cs : list Call) : list Event :=
  map (fun c => EvCall c MPI_SUCCESS) cs.

Definition is_process (c : Command) : bool :=
  match c with
  | PROCESS _ => true
  | _ => false
  end.

(** ** LogUtils.cc and Pipeline::initializeLogger *)

(** std::isspace in the "C" locale, which decides where operator>> of a
    stream into a std::string starts and stops. *)
Definition isspace (c : ascii) : bool :=
  let n := nat_of_ascii c in
  (n =? 32)%nat || ((9 <=? n)%nat && (n <=? 13)%nat).

Fixpoint skip_space (s : string) : string :=
  match s with
  | EmptyString => EmptyString
  | String c rest => if isspace c then skip_space rest else s
  end.

Fixpoint take_word (s : string) : string :=
  match s with
  | EmptyString => EmptyString
  | String c rest =>
      if isspace c then EmptyString else String c (take_word rest)
  end.

(** [buffer >> word] on a fresh stream that holds s: white space at the
    front is skipped, and the characters up to the next white space, or to
    the end, are stored. *)
Definition extract (s : string) : string := take_word (skip_space s).

(** What a function that takes [s.c_str()] as a C string sees of a
    std::string: the characters before the first NUL. *)
Fixpoint as_c_string (s : string) : string :=
  match s with
  | EmptyString => EmptyString
  | String c rest =>
      if Ascii.eqb c NUL then EmptyString else String c (as_c_string rest)
  end.

(** Neither white space nor NUL occurs in the string. *)
Fixpoint plain (s : string) : bool :=
  match s with
  | EmptyString => true
  | String c rest => negb (isspace c) && negb (Ascii.eqb c NUL) && plain rest
  end.

(** A log object: the one the constructors make, a child of the default
    log, or the one setupHarnessLogging returned; that function is not
    among the sources, and its result is known by its arguments only. *)
Inductive Log : Type :=
| ChildOfDefaultLog (name : string)
| HarnessLog (runId : string) (sliceId : Z) (evbHost : string)
             (pipename : option string) (outlog : option string)
             (logname : string).

(** What the logging functions do outside the object. *)
Inductive Effect : Type :=
| NewOfstream (path : string)
| CreateTransmitter (host topic : string)
| FormatInt (lg : Log) (level : LogLevel) (fmt : string) (arg : Z)
| FormatString (lg : Log) (level : LogLevel) (fmt : string) (arg : string).

(** A member function of a class with members S: it may change the
    members, and what it does outside is listed in order. *)
Definition Act (S A : Type) : Type := S -> A * S * list Effect.

Definition Act_ret {S A} (a : A) : Act S A := fun s => (a, s, []).

Definition Act_bind {S A B} (c : Act S A) (k : A -> Act S B) : Act S B :=
  fun s =>
    let '(a, s1, e1) := c s in
    let '(b, s2, e2) := k a s1 in
    (b, s2, e1 ++ e2).

#[global] Instance Monad_Act {S} : Monad (Act S) :=
  {| ret := @Act_ret S; bind := @Act_bind S |}.

Definition member {S A} (field : S -> A) : Act S A := fun s => (field s, s, []).

Definition store {S A} (setter : A -> S -> S) (v : A) : Act S unit :=
  fun s => (tt, setter v s, []).

Definition effect {S} (e : Effect) : Act S unit := fun s => (tt, s, [e]).

Definition whenever {S} (b : bool) (c : Act S unit) : Act S unit :=
  if b then c else ret tt.

Definition is_set {A} (ptr : option A) : bool :=
  match ptr with
  | Some _ => true
  | None => false
  end.

Module LogUtils.

Record LogUtils : Type := mkLogUtils {
  pipelineLog : Log;
  _evbHost : string;
  outlog : option string
}.

Definition set_pipelineLog (v : Log) (s : LogUtils) : LogUtils :=
  mkLogUtils v (_evbHost s) (outlog s).

Definition set_outlog (v : option string) (s : LogUtils) : LogUtils :=
  mkLogUtils (pipelineLog s) (_evbHost s) v.

(** LogUtils::LogUtils, lines 55-57 *)
Definition constructed : LogUtils :=
  mkLogUtils (ChildOfDefaultLog "harness") "" None.

(** LogUtils::initializeLogger, lines 68-104; [pid] is what getpid()
    returns. *)
Definition initializeLogger (isLocalLogMode : bool) (name runId logdir : string)
           (pid : Z) : Act LogUtils unit :=
  let logfileBuffer := "" in
  let logfileBuffer :=
    if 0 <? strlen logdir then ((logfileBuffer ++ logdir) ++ "/")%string
    else logfileBuffer in
  let logfileBuffer := (logfileBuffer ++ "Pipeline.log")%string in
  let logfile := extract logfileBuffer in

  whenever isLocalLogMode
    (effect (NewOfstream (as_c_string logfile)) ;;
     store set_outlog (Some (as_c_string logfile))) ;;

  evbHost <- member _evbHost ;;
  whenever (0 <? strlen evbHost)
    (effect (CreateTransmitter evbHost "logging")) ;;

  evbHost <- member _evbHost ;;
  out <- member outlog ;;
  let lp := HarnessLog runId (-1) evbHost (Some name) out "harness.pipeline" in
  store set_pipelineLog lp ;;

  lg <- member pipelineLog ;;
  effect (FormatInt lg INFO "Pipeline Logger initialized for pid=%d" pid) ;;
  out <- member outlog ;;
  whenever (is_set out)
    (lg <- member pipelineLog ;;
     effect (FormatString lg INFO "replicating messages to %s"
                          (as_c_string logfile))).

(** LogUtils::initializeSliceLogger, lines 109-152 *)
Definition initializeSliceLogger (isLocalLogMode : bool)
           (name runId logdir : string) (rank : Z) (pid : Z)
  : Act LogUtils unit :=
  logfile <-
    (if isLocalLogMode
     then
       let logfileBuffer := "" in
       let logfileBuffer :=
         if 0 <? strlen logdir then ((logfileBuffer ++ logdir) ++ "/")%string
         else logfileBuffer in
       let logfileBuffer := (logfileBuffer ++ "Slice")%string in
       let logfileBuffer := (logfileBuffer ++ decimal rank)%string in
       let logfileBuffer := (logfileBuffer ++ ".log")%string in
       let logfile := extract logfileBuffer in
       effect (NewOfstream (as_c_string logfile)) ;;
       store set_outlog (Some (as_c_string logfile)) ;;
       ret logfile
     else ret "") ;;

  evbHost <- member _evbHost ;;
  out <- member outlog ;;
  let lp := HarnessLog runId rank evbHost (Some name) out "harness.slice" in
  store set_pipelineLog lp ;;

  lg <- member pipelineLog ;;
  effect (FormatInt lg INFO "Slice Logger initialized for pid=%d" pid) ;;

  out <- member outlog ;;
  whenever (is_set out)
    (lg <- member pipelineLog ;;
     effect (FormatString lg INFO "replicating messages to %s"
                          (as_c_string logfile))).

End LogUtils.

(** The members pipelineLog and outlog of Pipeline, which the record
    [Pipeline] above leaves out. *)
Record PipelineLogs : Type := mkPipelineLogs {
  pipelineLog : Log;
  outlog : option string
}.

Definition set_pipelineLog (v : Log) (s : PipelineLogs) : PipelineLogs :=
  mkPipelineLogs v (outlog s).

Definition set_outlog (v : option string) (s : PipelineLogs) : PipelineLogs :=
  mkPipelineLogs (pipelineLog s) v.

(** Pipeline::Pipeline, lines 25-28, for these two members *)
Definition constructed_logs : PipelineLogs :=
  mkPipelineLogs (ChildOfDefaultLog "harness") None.

(** Pipeline::initializeLogger, lines 51-67, for the object p *)
Definition initializeLogger (isLocalLogMode : bool) (p : Pipeline)
  : Act PipelineLogs unit :=
  let logfile := "Pipeline.log" in
  whenever isLocalLogMode
    (effect (NewOfstream logfile) ;;
     store set_outlog (Some logfile)) ;;
  out <- member outlog ;;
  let lp := HarnessLog (_runId p) (-1) (_evbHost p) None out
                       "harness.pipeline" in
  store set_pipelineLog lp ;;
  lg <- member pipelineLog ;;
  effect (FormatInt lg INFO "Pipeline Logger initialized for pid=%d" (_pid p)) ;;
  out <- member outlog ;;
  whenever (is_set out)
    (lg <- member pipelineLog ;;
     effect (FormatString lg INFO "replicating messages to %s" logfile)).

(** The transmitters a list of effects creates: host and topic. *)
Fixpoint transmitters (es : list Effect) : list (string * string) :=
  match es with
  | [] => []
  | CreateTransmitter host topic :: rest => (host, topic) :: transmitters rest
  | _ :: rest => transmitters rest
  end.

(** The files a list of effects opens. *)
Fixpoint files_opened (es : list Effect) : list string :=
  match es with
  | [] => []
  | NewOfstream path :: rest => path :: files_opened rest
  | _ :: rest => files_opened rest
  end.

(** Pipeline::initializeLogger called again and again: each call with its
    log mode, on the object as it is then. *)
Fixpoint initializeLogger_each (modes : list (bool * Pipeline))
  : Act PipelineLogs unit :=
  match modes with
  | [] => ret tt
  | (isLocalLogMode, p) :: rest =>
      initializeLogger isLocalLogMode p ;; initializeLogger_each rest
  end.

(** ** Tactics *)

(** Case analysis on the status of the next MPI call. *)
Ltac split_status :=
  match goal with
  | |- context [mpi_status ?w ?h ?c =? MPI_SUCCESS] =>
      let E := fresh "E" in
      destruct (mpi_status w h c =? MPI_SUCCESS) eqn:E
  end.

(** Evaluate [after_failure] with the statuses that are known. *)
Ltac use_status :=
  cbn [trace after_failure past orb is_finalize];
  repeat match goal with
         | H : (_ =? MPI_SUCCESS) = _ |- _ => rewrite H
         end;
  cbn [trace after_failure past orb is_finalize].

Ltac fails_cleanly_leaf :=
  split;
  [ intros after Hafter; revert Hafter; use_status; intros Hafter;
    first [ discriminate Hafter
          | injection Hafter as <-; split; [eexists; reflexivity | reflexivity] ]
  | intros code t Hexit;
    first [ discriminate Hexit
          | injection Hexit as <- <-; split;
            [reflexivity | use_status; discriminate] ] ].

(** ** The basic steps *)

Lemma char_array_run (n : Z) (w : World) (m : Machine) :
  0 <= n -> char_array n w m = Returned (indeterminate w (past m) n) m.
Proof.
  intros Hn. unfold char_array, indeterminate.
  destruct (Z.ltb_spec n 0); [lia | reflexivity].
Qed.

Lemma indeterminate_length (w : World) (h : list Event) (n : Z) :
  0 <= n -> Z.of_nat (List.length (indeterminate w h n)) = n.
Proof.
  intros Hn. unfold indeterminate.
  rewrite length_map, length_seq. lia.
Qed.

Lemma strcpy_run (dst : list ascii) (src : string) (w : World) (m : Machine) :
  strlen src + 1 <= Z.of_nat (List.length dst) ->
  strcpy dst src w m =
  Returned (list_ascii_of_string src ++ NUL
              :: skipn (String.length src + 1) dst) m.
Proof.
  intros Hfit. unfold strcpy.
  destruct (Z.leb_spec (strlen src + 1) (Z.of_nat (List.length dst)));
    [reflexivity | lia].
Qed.

Lemma strcpy_overrun (dst : list ascii) (src : string) (w : World) (m : Machine) :
  Z.of_nat (List.length dst) < strlen src + 1 ->
  strcpy dst src w m = Undefined (past m).
Proof.
  intros Hbig. unfold strcpy.
  destruct (Z.leb_spec (strlen src + 1) (Z.of_nat (List.length dst)));
    [lia | reflexivity].
Qed.

Lemma inert_char_array (n : Z) : inert (char_array n).
Proof.
  intros w m. unfold char_array. destruct (n <? 0); reflexivity.
Qed.

Lemma inert_strcpy (dst : list ascii) (src : string) : inert (strcpy dst src).
Proof.
  intros w m. unfold strcpy.
  destruct (strlen src + 1 <=? Z.of_nat (List.length dst)); reflexivity.
Qed.

Lemma inert_bind {A B} (c : Proc A) (k : A -> Proc B) :
  inert c -> (forall a, inert (k a)) -> inert (Proc_bind c k).
Proof.
  intros Hc Hk w m. unfold Proc_bind. specialize (Hc w m).
  destruct (c w m) as [a m1 | |]; [subst m1; apply Hk | exact Hc | exact Hc].
Qed.

Lemma inert_ret {A} (a : A) : inert (Proc_ret a).
Proof. intros w m. reflexivity. Qed.

Lemma inert_char_rows (n : nat) (k : Z) : inert (char_rows n k).
Proof.
  induction n as [| n IH]; cbn [char_rows bind ret Monad_Proc].
  - apply inert_ret.
  - apply inert_bind; [apply inert_char_array | intros r].
    apply inert_bind; [exact IH | intros rs; apply inert_ret].
Qed.

Lemma inert_char_matrix (n k : Z) : inert (char_matrix n k).
Proof.
  unfold char_matrix. destruct (n <? 0).
  - intros w m. reflexivity.
  - apply inert_char_rows.
Qed.

Lemma inert_strcpy_rows (rows : list (list ascii)) (src : string) :
  inert (strcpy_rows rows src).
Proof.
  induction rows as [| r rest IH]; cbn [strcpy_rows bind ret Monad_Proc].
  - apply inert_ret.
  - apply inert_bind; [apply inert_strcpy | intros r'].
    apply inert_bind; [exact IH | intros rs; apply inert_ret].
Qed.

(** The rows of [char a[n][k]] all have k elements. *)
Lemma char_rows_run (n : nat) (k : Z) (w : World) (m : Machine) :
  0 <= k ->
  exists rows, char_rows n k w m = Returned rows m
               /\ Forall (fun r => Z.of_nat (List.length r) = k) rows.
Proof.
  intros Hk. induction n as [| n [rows [E F]]].
  - exists []. split; [reflexivity | constructor].
  - exists (indeterminate w (past m) k :: rows).
    cbn [char_rows bind ret Monad_Proc]. unfold Proc_bind.
    rewrite char_array_run by exact Hk. rewrite E. split; [reflexivity |].
    constructor; [apply indeterminate_length; exact Hk | exact F].
Qed.

(** The loop over the rows copies the literal into each row that can hold
    it and leaves the machine as it was. *)
Lemma strcpy_rows_run (rows : list (list ascii)) (src : string)
      (w : World) (m : Machine) :
  Forall (fun r => strlen src + 1 <= Z.of_nat (List.length r)) rows ->
  exists rows', strcpy_rows rows src w m = Returned rows' m.
Proof.
  induction 1 as [| r rest Hr _ [rows' E]].
  - exists []. reflexivity.
  - eexists. cbn [strcpy_rows bind ret Monad_Proc]. unfold Proc_bind.
    rewrite strcpy_run by exact Hr. rewrite E. reflexivity.
Qed.

(** ** Two patterns every member function repeats *)

(** [char procCommand[bufferSize]; std::strcpy(procCommand, name);] *)
Lemma buffer_run {A} (name : string) (k : list ascii -> Proc A)
      (w : World) (m : Machine) :
  strlen name + 1 <= bufferSize (self m) ->
  Proc_bind (this bufferSize)
    (fun bs => Proc_bind (char_array bs)
       (fun procCommand => Proc_bind (strcpy procCommand name) k)) w m
  = k (command_buffer w (past m) (bufferSize (self m)) name) w m.
Proof.
  intros Hfit. unfold strlen in Hfit. unfold Proc_bind at 1 2, this.
  rewrite char_array_run by lia.
  unfold Proc_bind.
  rewrite strcpy_run by (rewrite indeterminate_length; unfold strlen; lia).
  reflexivity.
Qed.

(** The same when the buffer is too small for the literal. *)
Lemma buffer_overrun {A} (name : string) (k : list ascii -> Proc A)
      (w : World) (m : Machine) :
  bufferSize (self m) < strlen name + 1 ->
  Proc_bind (this bufferSize)
    (fun bs => Proc_bind (char_array bs)
       (fun procCommand => Proc_bind (strcpy procCommand name) k)) w m
  = Undefined (past m).
Proof.
  intros Hbig. unfold Proc_bind at 1 2, this, char_array.
  destruct (Z.ltb_spec (bufferSize (self m)) 0) as [Hneg | Hpos].
  - reflexivity.
  - unfold Proc_bind.
    rewrite strcpy_overrun; [reflexivity |].
    fold (indeterminate w (past m) (bufferSize (self m))).
    rewrite indeterminate_length by exact Hpos. exact Hbig.
Qed.

(** [mpiError = MPI_...(...); if (mpiError != MPI_SUCCESS) { MPI_Finalize();
    exit(1); }] *)
Lemma check_run {A} (c : Call) (k : Proc A) (w : World) (m : Machine) :
  Proc_bind (mpi c)
    (fun e => Proc_bind (assign set_mpiError e)
       (fun _ => Proc_bind (this mpiError)
          (fun err =>
             Proc_bind
               (when (negb (err =? MPI_SUCCESS))
                     (Proc_bind (mpi MPI_Finalize) (fun _ => exit 1)))
               (fun _ => k)))) w m
  = if mpi_status w (past m) c =? MPI_SUCCESS
    then k w (passed w m c)
    else Exited 1 (fatal w (past m) c).
Proof.
  unfold Proc_bind, mpi, assign, this, when, passed, fatal.
  cbn [self past mpiError set_mpiError].
  destruct (mpi_status w (past m) c =? MPI_SUCCESS); reflexivity.
Qed.

Lemma passed_self (w : World) (m : Machine) (c : Call) :
  self (passed w m c) = set_mpiError (mpi_status w (past m) c) (self m).
Proof. reflexivity. Qed.

Lemma passed_past (w : World) (m : Machine) (c : Call) :
  past (passed w m c) = past m ++ [EvCall c (mpi_status w (past m) c)].
Proof. reflexivity. Qed.

(** ** What each member function does, case by case *)

Lemma invokeContinue_run (w : World) (m : Machine) :
  8 < bufferSize (self m) ->
  invokeContinue w m =
  let b := MPI_Bcast
             (Chars (command_buffer w (past m) (bufferSize (self m)) "CONTINUE"))
             (bufferSize (self m)) MPI_CHAR MPI_ROOT (sliceIntercomm (self m)) in
  if mpi_status w (past m) b =? MPI_SUCCESS
  then Returned tt (passed w m b)
  else Exited 1 (fatal w (past m) b).
Proof.
  intros Hbs. unfold invokeContinue. cbn [bind ret Monad_Proc].
  rewrite buffer_run by (cbn; lia).
  unfold Proc_bind at 1 2, this. rewrite check_run. reflexivity.
Qed.

Lemma invokeShutdown_run (w : World) (m : Machine) :
  8 < bufferSize (self m) ->
  invokeShutdown w m =
  let b := MPI_Bcast
             (Chars (command_buffer w (past m) (bufferSize (self m)) "SHUTDOWN"))
             (bufferSize (self m)) MPI_CHAR MPI_ROOT (sliceIntercomm (self m)) in
  if mpi_status w (past m) b =? MPI_SUCCESS
  then Returned tt (passed w m b)
  else Exited 1 (fatal w (past m) b).
Proof.
  intros Hbs. unfold invokeShutdown. cbn [bind ret Monad_Proc].
  rewrite buffer_run by (cbn; lia).
  unfold Proc_bind at 1 2, this. rewrite check_run. reflexivity.
Qed.

Lemma char_matrix_run (n k : Z) (w : World) (m : Machine) :
  0 <= n -> 0 <= k ->
  exists rows, char_matrix n k w m = Returned rows m
               /\ Forall (fun r => Z.of_nat (List.length r) = k) rows.
Proof.
  intros Hn Hk. unfold char_matrix.
  destruct (Z.ltb_spec n 0); [lia | apply char_rows_run; exact Hk].
Qed.

Lemma invokeSyncSlices_run (w : World) (m : Machine) :
  4 < bufferSize (self m) ->
  invokeSyncSlices w m =
  let r := rank (self m) in
  let bs := bufferSize (self m) in
  let comm := sliceIntercomm (self m) in
  let m1 := logged (logged m INFO "Start invokeSyncSlices: rank %d " r)
                   INFO "InterSlice Communication Command Bcast rank %d " r in
  let b := MPI_Bcast (Chars (command_buffer w (past m1) bs "SYNC"))
                     bs MPI_CHAR MPI_ROOT comm in
  if mpi_status w (past m1) b =? MPI_SUCCESS
  then
    let m2 := logged (passed w m1 b) INFO "End Bcast rank %d " r in
    if mpi_status w (past m2) (MPI_Barrier comm) =? MPI_SUCCESS
    then Returned tt (logged (passed w m2 (MPI_Barrier comm))
                             INFO "End invokeSyncSlices rank %d " r)
    else Exited 1 (fatal w (past m2) (MPI_Barrier comm))
  else Exited 1 (fatal w (past m1) b).
Proof.
  intros Hbs. unfold invokeSyncSlices. cbn [bind ret Monad_Proc].
  unfold Proc_bind at 1 2 3 4, this, log. cbn [self past].
  rewrite buffer_run by (cbn; lia).
  unfold Proc_bind at 1 2, this. rewrite check_run. cbn [self past].
  unfold logged. cbn [self past].
  destruct (mpi_status w _ _ =? MPI_SUCCESS); [| reflexivity].
  unfold Proc_bind at 1 2 3, this, log. rewrite passed_self, passed_past.
  cbn [self past rank sliceIntercomm set_mpiError].
  rewrite check_run. unfold passed. cbn [self past].
  destruct (mpi_status w _ (MPI_Barrier _) =? MPI_SUCCESS); reflexivity.
Qed.

Lemma invokeProcess_run (iStage : Z) (w : World) (m : Machine) :
  7 < bufferSize (self m) ->
  0 <= nSlices (self m) ->
  invokeProcess iStage w m =
  let bs := bufferSize (self m) in
  let comm := sliceIntercomm (self m) in
  let b := MPI_Bcast (Chars (command_buffer w (past m) bs "PROCESS"))
                     bs MPI_CHAR MPI_ROOT comm in
  let s := MPI_Bcast (Ints [iStage]) 1 MPI_INT MPI_ROOT comm in
  if mpi_status w (past m) b =? MPI_SUCCESS
  then
    let m1 := passed w m b in
    if mpi_status w (past m1) s =? MPI_SUCCESS
    then
      let m2 := passed w m1 s in
      if mpi_status w (past m2) (MPI_Barrier comm) =? MPI_SUCCESS
      then Returned tt (passed w m2 (MPI_Barrier comm))
      else Exited 1 (fatal w (past m2) (MPI_Barrier comm))
    else Exited 1 (fatal w (past m1) s)
  else Exited 1 (fatal w (past m) b).
Proof.
  intros Hbs Hns. unfold invokeProcess. cbn [bind ret Monad_Proc].
  unfold Proc_bind at 1 2 3, this.
  destruct (char_matrix_run (nSlices (self m)) (bufferSize (self m)) w m)
    as [rows [Erows Frows]]; [lia | lia |].
  rewrite Erows.
  destruct (strcpy_rows_run rows "PROCESS" w m) as [rows' Ecopy].
  { eapply Forall_impl; [| exact Frows]. cbn beta. intros r Hr.
    rewrite Hr. cbn. lia. }
  unfold Proc_bind at 1. rewrite Ecopy.
  rewrite buffer_run by (cbn; lia).
  unfold Proc_bind at 1 2, this. rewrite check_run. cbn zeta.
  destruct (mpi_status w (past m) _ =? MPI_SUCCESS); [| reflexivity].
  unfold Proc_bind at 1, this. rewrite check_run. rewrite !passed_self.
  cbn [sliceIntercomm set_mpiError].
  destruct (mpi_status w (past (passed w m _)) _ =? MPI_SUCCESS);
    [| reflexivity].
  unfold Proc_bind at 1, this. rewrite check_run. rewrite !passed_self.
  cbn [sliceIntercomm set_mpiError].
  destruct (mpi_status w _ (MPI_Barrier _) =? MPI_SUCCESS); reflexivity.
Qed.

(** With a buffer too small for the literal, or a negative number of
    slices, invokeProcess has no defined behaviour, before any MPI call. *)
Lemma invokeProcess_undefined (iStage : Z) (w : World) (m : Machine) :
  bufferSize (self m) <= 7 \/ nSlices (self m) < 0 ->
  invokeProcess iStage w m = Undefined (past m).
Proof.
  intros Hbad. unfold invokeProcess. cbn [bind ret Monad_Proc].
  unfold Proc_bind at 1 2 3, this.
  pose proof (inert_char_matrix (nSlices (self m)) (bufferSize (self m)) w m)
    as Hmat.
  destruct (char_matrix (nSlices (self m)) (bufferSize (self m)) w m)
    as [rows m1 | |] eqn:Emat; [subst m1 | contradiction | congruence].
  unfold Proc_bind at 1.
  pose proof (inert_strcpy_rows rows "PROCESS" w m) as Hcopy.
  destruct (strcpy_rows rows "PROCESS" w m) as [rows' m1 | |];
    [subst m1 | contradiction | congruence].
  destruct (Z_le_gt_dec (bufferSize (self m)) 7) as [Hsmall | Hlarge].
  - apply buffer_overrun. cbn. lia.
  - unfold char_matrix in Emat.
    destruct (Z.ltb_spec (nSlices (self m)) 0); [discriminate | lia].
Qed.

Lemma initializeMPI_run (w : World) (m : Machine) :
  initializeMPI w m =
  if mpi_status w (past m) MPI_Init =? MPI_SUCCESS
  then
    let m1 := passed w m MPI_Init in
    let c2 := MPI_Comm_rank MPI_COMM_WORLD in
    if mpi_status w (past m1) c2 =? MPI_SUCCESS
    then
      let m2 := stored w m1 c2 (set_rank (world_rank w)) in
      let c3 := MPI_Comm_size MPI_COMM_WORLD in
      if mpi_status w (past m2) c3 =? MPI_SUCCESS
      then
        let m3 := stored w m2 c3 (set_size (world_size w)) in
        let c4 := MPI_Attr_get MPI_COMM_WORLD MPI_UNIVERSE_SIZE in
        if mpi_status w (past m3) c4 =? MPI_SUCCESS
        then
          let m4 := passed w m3 c4 in
          match universe_attr w with
          | None => Undefined (past m4)
          | Some u =>
              Returned tt
                (mkMachine
                   (set_nSlices (Int.sub u 1) (set_universeSize u (self m4)))
                   (past m4))
          end
        else Exited 1 (fatal w (past m3) c4)
      else Exited 1 (fatal w (past m2) c3)
    else Exited 1 (fatal w (past m1) c2)
  else Exited 1 (fatal w (past m) MPI_Init).
Proof.
  unfold initializeMPI.
  cbv beta iota zeta delta
      [bind ret Monad_Proc Proc_bind Proc_ret mpi env when assign this exit
       undefined passed stored fatal self past mpiError set_mpiError negb].
  repeat (match goal with
          | |- context [?st =? MPI_SUCCESS] => destruct (st =? MPI_SUCCESS)
          end; cbv beta iota; try reflexivity).
  destruct (universe_attr w); reflexivity.
Qed.

Lemma startSlices_run (w : World) (m : Machine) :
  0 <= nSlices (self m) ->
  startSlices w m =
  let c := spawn_call w (self m) in
  if mpi_status w (past m) c =? MPI_SUCCESS
  then Returned tt (stored w m c (set_sliceIntercomm (spawned w)))
  else Exited 1 (fatal w (past m) c).
Proof.
  intros Hns. unfold startSlices, spawn_call, int_array.
  cbn [bind ret Monad_Proc].
  unfold Proc_bind, mpi, env, when, assign, this, Proc_ret, exit, stored, fatal.
  destruct (Z.ltb_spec (nSlices (self m)) 0); [lia |].
  cbn [self past mpiError set_mpiError].
  destruct (mpi_status w (past m) _ =? MPI_SUCCESS); reflexivity.
Qed.

Lemma startSlices_undefined (w : World) (m : Machine) :
  nSlices (self m) < 0 ->
  startSlices w m = Undefined (past m).
Proof.
  intros Hns. unfold startSlices, int_array. cbn [bind ret Monad_Proc].
  unfold Proc_bind, env, this.
  destruct (Z.ltb_spec (nSlices (self m)) 0); [reflexivity | lia].
Qed.

Lemma invokeContinue_undefined (w : World) (m : Machine) :
  bufferSize (self m) <= 8 ->
  invokeContinue w m = Undefined (past m).
Proof.
  intros Hbs. unfold invokeContinue. cbn [bind ret Monad_Proc].
  apply buffer_overrun. cbn. lia.
Qed.

Lemma invokeShutdown_undefined (w : World) (m : Machine) :
  bufferSize (self m) <= 8 ->
  invokeShutdown w m = Undefined (past m).
Proof.
  intros Hbs. unfold invokeShutdown. cbn [bind ret Monad_Proc].
  apply buffer_overrun. cbn. lia.
Qed.

Lemma invokeSyncSlices_undefined (w : World) (m : Machine) :
  bufferSize (self m) <= 4 ->
  invokeSyncSlices w m =
  Undefined
    (past (logged (logged m INFO "Start invokeSyncSlices: rank %d "
                          (rank (self m)))
                  INFO "InterSlice Communication Command Bcast rank %d "
                  (rank (self m)))).
Proof.
  intros Hbs. unfold invokeSyncSlices. cbn [bind ret Monad_Proc].
  unfold Proc_bind at 1 2 3 4, this, log. cbn [self past].
  rewrite buffer_overrun by (cbn; lia). reflexivity.
Qed.

(** ** The buffer that is broadcast *)

Lemma list_ascii_length (s : string) :
  List.length (list_ascii_of_string s) = String.length s.
Proof.
  induction s as [| c s IH]; cbn; [reflexivity | now rewrite IH].
Qed.

Lemma command_buffer_length (w : World) (h : list Event) (n : Z)
      (name : string) :
  strlen name + 1 <= n ->
  Z.of_nat (List.length (command_buffer w h n name)) = n.
Proof.
  unfold strlen, command_buffer. intros Hfit.
  rewrite length_app, list_ascii_length. cbn [List.length].
  rewrite length_skipn.
  pose proof (indeterminate_length w h n) as Hlen. lia.
Qed.

Lemma command_buffer_c_str (w : World) (h : list Event) (n : Z) (c : Command) :
  c_str (command_buffer w h n (command_name c)) = command_name c.
Proof. destruct c; reflexivity. Qed.

Lemma command_buffer_head (w : World) (h : list Event) (n : Z) (name : string) :
  firstn (String.length name + 1) (command_buffer w h n name)
  = list_ascii_of_string name ++ [NUL].
Proof.
  unfold command_buffer.
  replace (String.length name + 1)%nat
    with (List.length (list_ascii_of_string name) + 1)%nat
    by now rewrite list_ascii_length.
  rewrite firstn_app_2. cbn [firstn]. reflexivity.
Qed.

Lemma command_buffer_tail (w : World) (h : list Event) (n : Z) (name : string) :
  skipn (String.length name + 1) (command_buffer w h n name)
  = skipn (String.length name + 1) (indeterminate w h n).
Proof.
  unfold command_buffer.
  set (rest := skipn (String.length name + 1) (indeterminate w h n)).
  replace (String.length name + 1)%nat
    with (List.length (list_ascii_of_string name ++ [NUL]))
    by (rewrite length_app, list_ascii_length; reflexivity).
  replace (list_ascii_of_string name ++ NUL :: rest)
    with ((list_ascii_of_string name ++ [NUL]) ++ rest)
    by (rewrite <- app_assoc; reflexivity).
  rewrite skipn_app, skipn_all, Nat.sub_diag. reflexivity.
Qed.

(** ** What the member functions do on the channel *)

(** C4: invokeContinue performs exactly one collective operation, the
    broadcast of the 256-char buffer that holds CONTINUE, from MPI_ROOT on
    the slice intercommunicator.  When it returns, this call is the whole
    history (no barrier, nothing else) and the object differs from the one
    before only in mpiError; and it returns when the broadcast succeeds. *)
Theorem invokeContinue_single_broadcast (w : World) (p : Pipeline) :
  bufferSize p = 256 ->
  let r := run invokeContinue w p in
  let buf := command_buffer w [] 256 "CONTINUE" in
  let b := MPI_Bcast (Chars buf) 256 MPI_CHAR MPI_ROOT (sliceIntercomm p) in
  c_str buf = "CONTINUE"
  /\ Z.of_nat (List.length buf) = 256
  /\ collectives (trace r) = [b]
  /\ (forall m, r = Returned tt m ->
        past m = [EvCall b MPI_SUCCESS]
        /\ self m = set_mpiError MPI_SUCCESS p)
  /\ (mpi_status w [] b = MPI_SUCCESS -> exists m, r = Returned tt m).
Proof.
  intros Hbs. cbn zeta. unfold run.
  rewrite invokeContinue_run by (cbn [self]; lia).
  cbn zeta. cbn [self past]. rewrite Hbs.
  split; [reflexivity |].
  split; [apply command_buffer_length; cbn; lia |].
  unfold passed, fatal. cbn [self past app].
  destruct (Z.eqb_spec (mpi_status w []
              (MPI_Bcast (Chars (command_buffer w [] 256 "CONTINUE")) 256
                         MPI_CHAR MPI_ROOT (sliceIntercomm p))) MPI_SUCCESS)
    as [Eok | Eko].
  - rewrite Eok. split; [reflexivity |]. split.
    + intros m Hm. injection Hm as <-. split; reflexivity.
    + intros _. eexists. reflexivity.
  - split; [reflexivity |]. split; [discriminate | contradiction].
Qed.

Lemma invokeContinue_single_broadcast_witness :
  bufferSize ready = 256
  /\ collectives (trace (run invokeContinue calm ready))
     = [MPI_Bcast (Chars (command_buffer calm [] 256 "CONTINUE")) 256
                  MPI_CHAR MPI_ROOT (Intercomm 1)].
Proof.
  split; [reflexivity |].
  exact (proj1 (proj2 (proj2
           (invokeContinue_single_broadcast calm ready eq_refl)))).
Defined.

(** C3: invokeSyncSlices performs exactly two collective operations, in
    this order: the broadcast of the 256-char buffer that holds SYNC, then
    a barrier on the slice intercommunicator.  When it returns, its MPI
    calls are these two and both succeeded, with log messages around them;
    when it does not, the collectives done are an initial part of the two;
    and it returns when both succeed. *)
Theorem invokeSyncSlices_broadcast_then_barrier (w : World) (p : Pipeline) :
  bufferSize p = 256 ->
  let r := run invokeSyncSlices w p in
  let l1 := EvLog INFO "Start invokeSyncSlices: rank %d " (rank p) in
  let l2 := EvLog INFO "InterSlice Communication Command Bcast rank %d "
                  (rank p) in
  let l3 := EvLog INFO "End Bcast rank %d " (rank p) in
  let l4 := EvLog INFO "End invokeSyncSlices rank %d " (rank p) in
  let buf := command_buffer w [l1; l2] 256 "SYNC" in
  let b := MPI_Bcast (Chars buf) 256 MPI_CHAR MPI_ROOT (sliceIntercomm p) in
  let bar := MPI_Barrier (sliceIntercomm p) in
  c_str buf = "SYNC"
  /\ Z.of_nat (List.length buf) = 256
  /\ (forall m, r = Returned tt m ->
        past m = [l1; l2; EvCall b MPI_SUCCESS; l3;
                  EvCall bar MPI_SUCCESS; l4]
        /\ calls (past m) = [b; bar])
  /\ (exists n, collectives (trace r) = firstn n [b; bar])
  /\ (mpi_status w [l1; l2] b = MPI_SUCCESS ->
      mpi_status w [l1; l2; EvCall b MPI_SUCCESS; l3] bar = MPI_SUCCESS ->
      exists m, r = Returned tt m).
Proof.
  intros Hbs. cbn zeta. unfold run.
  rewrite invokeSyncSlices_run by (cbn [self]; lia).
  cbn zeta. unfold logged, passed, fatal. cbn [self past app rank
    sliceIntercomm set_mpiError bufferSize]. rewrite Hbs.
  split; [reflexivity |].
  split; [apply command_buffer_length; cbn; lia |].
  match goal with
  | |- context [mpi_status w ?h ?c =? MPI_SUCCESS] =>
      destruct (Z.eqb_spec (mpi_status w h c) MPI_SUCCESS) as [Eb | Eb]
  end.
  - rewrite Eb.
    match goal with
    | |- context [mpi_status w ?h ?c =? MPI_SUCCESS] =>
        destruct (Z.eqb_spec (mpi_status w h c) MPI_SUCCESS) as [Ebar | Ebar]
    end.
    + rewrite Ebar. split; [| split].
      * intros m Hm. injection Hm as <-. split; reflexivity.
      * exists 2%nat. reflexivity.
      * intros _ _. eexists. reflexivity.
    + split; [discriminate | split].
      * exists 2%nat. reflexivity.
      * intros _ Hok. contradiction.
  - split; [discriminate | split].
    + exists 1%nat. reflexivity.
    + intros Hok. contradiction.
Qed.

Lemma invokeSyncSlices_broadcast_then_barrier_witness :
  bufferSize ready = 256
  /\ exists m, run invokeSyncSlices calm ready = Returned tt m.
Proof.
  split; [reflexivity |].
  apply (invokeSyncSlices_broadcast_then_barrier calm ready eq_refl);
    reflexivity.
Defined.

(** C1: for every stage index, invokeProcess performs exactly three
    collective operations on the slice intercommunicator, in this order:
    the broadcast of the 256-char buffer that holds PROCESS, the broadcast
    of iStage as one MPI_INT, and a barrier.  When it returns, these three
    calls, all successful, are the whole history, the barrier last; when it
    does not, the collectives done are an initial part of the three; and it
    returns when the three succeed. *)
Theorem invokeProcess_three_collectives (iStage : Z) (w : World) (p : Pipeline) :
  bufferSize p = 256 ->
  0 <= nSlices p ->
  let r := run (invokeProcess iStage) w p in
  let buf := command_buffer w [] 256 "PROCESS" in
  let b := MPI_Bcast (Chars buf) 256 MPI_CHAR MPI_ROOT (sliceIntercomm p) in
  let s := MPI_Bcast (Ints [iStage]) 1 MPI_INT MPI_ROOT (sliceIntercomm p) in
  let bar := MPI_Barrier (sliceIntercomm p) in
  c_str buf = "PROCESS"
  /\ Z.of_nat (List.length buf) = 256
  /\ (forall m, r = Returned tt m ->
        past m = [EvCall b MPI_SUCCESS; EvCall s MPI_SUCCESS;
                  EvCall bar MPI_SUCCESS])
  /\ (exists n, collectives (trace r) = firstn n [b; s; bar])
  /\ (mpi_status w [] b = MPI_SUCCESS ->
      mpi_status w [EvCall b MPI_SUCCESS] s = MPI_SUCCESS ->
      mpi_status w [EvCall b MPI_SUCCESS; EvCall s MPI_SUCCESS] bar
        = MPI_SUCCESS ->
      exists m, r = Returned tt m).
Proof.
  intros Hbs Hns. cbn zeta. unfold run.
  rewrite invokeProcess_run by (cbn [self]; lia).
  cbn zeta. unfold passed, fatal. cbn [self past app sliceIntercomm
    set_mpiError bufferSize]. rewrite Hbs.
  split; [reflexivity |].
  split; [apply command_buffer_length; cbn; lia |].
  match goal with
  | |- context [mpi_status w ?h ?c =? MPI_SUCCESS] =>
      destruct (Z.eqb_spec (mpi_status w h c) MPI_SUCCESS) as [Eb | Eb]
  end.
  - rewrite Eb.
    match goal with
    | |- context [mpi_status w ?h ?c =? MPI_SUCCESS] =>
        destruct (Z.eqb_spec (mpi_status w h c) MPI_SUCCESS) as [Es | Es]
    end.
    + rewrite Es.
      match goal with
      | |- context [mpi_status w ?h ?c =? MPI_SUCCESS] =>
          destruct (Z.eqb_spec (mpi_status w h c) MPI_SUCCESS) as [Ebar | Ebar]
      end.
      * rewrite Ebar. split; [| split].
        -- intros m Hm. injection Hm as <-. reflexivity.
        -- exists 3%nat. reflexivity.
        -- intros _ _ _. eexists. reflexivity.
      * split; [discriminate | split].
        -- exists 3%nat. reflexivity.
        -- intros _ _ Hok. contradiction.
    + split; [discriminate | split].
      * exists 2%nat. reflexivity.
      * intros _ Hok. contradiction.
  - split; [discriminate | split].
    + exists 1%nat. reflexivity.
    + intros Hok. contradiction.
Qed.

Lemma invokeProcess_three_collectives_witness :
  bufferSize ready = 256
  /\ 0 <= nSlices ready
  /\ exists m, run (invokeProcess 2) calm ready = Returned tt m.
Proof.
  split; [reflexivity |]. split; [cbn; lia |].
  apply (invokeProcess_three_collectives 2 calm ready eq_refl); cbn;
    solve [lia | reflexivity].
Defined.

Lemma Int_sub_exact (a b : Z) :
  Int.in_range (a - b) -> Int.sub a b = a - b.
Proof.
  unfold Int.in_range, Int.sub, Int.wrap, Int.min_signed, Int.max_signed,
    Int.modulus.
  intros Hr. rewrite Z.mod_small by lia. lia.
Qed.

(** C2: when the MPI_UNIVERSE_SIZE attribute holds the int u (any int but
    the least one, where u - 1 is not an int), initializeMPI returns with
    universeSize = u and nSlices = u - 1; so nSlices >= 0 for u >= 1.  It
    does return when the four MPI calls succeed. *)
Theorem fleet_size_is_universe_size_minus_one (w : World) (p : Pipeline) (u : Z) :
  universe_attr w = Some u ->
  Int.min_signed < u <= Int.max_signed ->
  let r := run initializeMPI w p in
  (forall m, r = Returned tt m ->
     universeSize (self m) = u
     /\ nSlices (self m) = u - 1
     /\ (1 <= u -> 0 <= nSlices (self m)))
  /\ (dependable w -> exists m, r = Returned tt m).
Proof.
  intros Hu Hrange. cbn zeta. unfold run. rewrite initializeMPI_run.
  cbn zeta. rewrite Hu. split.
  - intros m Hm.
    repeat match type of Hm with
           | context [?st =? MPI_SUCCESS] =>
               destruct (st =? MPI_SUCCESS); [| discriminate Hm]
           end.
    injection Hm as <-. cbn [self nSlices universeSize set_nSlices
                               set_universeSize].
    rewrite Int_sub_exact.
    + repeat split; lia.
    + unfold Int.in_range, Int.min_signed, Int.max_signed in *. lia.
  - intros Hw. rewrite !Hw. cbn [Z.eqb MPI_SUCCESS]. eexists. reflexivity.
Qed.

Lemma fleet_size_is_universe_size_minus_one_witness :
  universe_attr calm = Some 4
  /\ Int.min_signed < 4 <= Int.max_signed
  /\ exists m, run initializeMPI calm ready = Returned tt m
               /\ nSlices (self m) = 3.
Proof.
  split; [reflexivity |].
  split; [unfold Int.min_signed, Int.max_signed; lia |].
  destruct (fleet_size_is_universe_size_minus_one calm ready 4 eq_refl)
    as [Hret Hdoes].
  - unfold Int.min_signed, Int.max_signed. lia.
  - destruct Hdoes as [m Hm]; [intros h c; reflexivity |].
    exists m. split; [exact Hm |].
    destruct (Hret m Hm) as [_ [Hn _]]. exact Hn.
Defined.

(** What operator<< writes for an int can be read back as that int. *)
Lemma decimal_read_back (z : Z) :
  option_map Z.of_int (NilZero.int_of_string (decimal z)) = Some z.
Proof.
  unfold decimal. pose proof (DecimalZ.of_to z) as Hz.
  destruct (Z.to_int z) as [u | u].
  - destruct u;
      [ rewrite NilZero.isi_posnil; cbn [option_map]; f_equal; exact Hz
      | rewrite NilZero.isi by discriminate;
        cbn [option_map]; f_equal; exact Hz .. ].
  - destruct u;
      [ rewrite NilZero.isi_negnil; cbn [option_map]; f_equal; exact Hz
      | rewrite NilZero.isi by discriminate;
        cbn [option_map]; f_equal; exact Hz .. ].
Qed.

(** X16: startSlices makes one MPI_Comm_spawn call: the command is the worker
    script runSlice.py, the number of processes is nSlices, and the
    argument vector is the policy name, the run identifier, "-l" and what
    is found behind lev.c_str().  When it returns, this call is its whole
    history and it succeeded, and sliceIntercomm is the intercommunicator
    the spawn created, nothing else of the configuration having changed;
    it returns when the spawn succeeds.  Where the spawn finds the
    characters of the stream, the worker can read the threshold of the
    default log back from the fourth argument. *)
Theorem startSlices_spawns_nSlices_workers (w : World) (p : Pipeline) :
  0 <= nSlices p ->
  let r := run startSlices w p in
  let lev := lev_c_str w (decimal (log_threshold w)) in
  let argv := [_policyName p; _runId p; "-l"; lev] in
  let c := MPI_Comm_spawn "runSlice.py" argv (nSlices p) MPI_INFO_NULL 0
                          MPI_COMM_WORLD in
  hd_error (calls (trace r)) = Some c
  /\ (forall m, r = Returned tt m ->
        past m = [EvCall c MPI_SUCCESS]
        /\ sliceIntercomm (self m) = spawned w
        /\ self m = set_mpiError MPI_SUCCESS
                      (set_sliceIntercomm (spawned w) p))
  /\ (mpi_status w [] c = MPI_SUCCESS -> exists m, r = Returned tt m)
  /\ (lev = decimal (log_threshold w) ->
      option_map Z.of_int (NilZero.int_of_string (nth 3 argv ""))
      = Some (log_threshold w)).
Proof.
  intros Hns. cbn zeta. unfold run.
  rewrite startSlices_run by exact Hns.
  cbn zeta. unfold spawn_call, stored, fatal. cbn [self past app nth].
  assert (Hlev : lev_c_str w (decimal (log_threshold w))
                 = decimal (log_threshold w) ->
                 option_map Z.of_int
                   (NilZero.int_of_string
                      (lev_c_str w (decimal (log_threshold w))))
                 = Some (log_threshold w))
    by (intros ->; apply decimal_read_back).
  match goal with
  | |- context [mpi_status w ?h ?c =? MPI_SUCCESS] =>
      destruct (Z.eqb_spec (mpi_status w h c) MPI_SUCCESS) as [E | E]
  end.
  - rewrite E. split; [reflexivity | split; [| split]].
    + intros m Hm. injection Hm as <-. repeat split.
    + intros _. eexists. reflexivity.
    + exact Hlev.
  - split; [reflexivity | split; [| split]];
      [discriminate | contradiction | exact Hlev].
Qed.

Lemma startSlices_spawns_nSlices_workers_witness :
  0 <= nSlices ready
  /\ hd_error (calls (trace (run startSlices calm ready)))
     = Some (MPI_Comm_spawn "runSlice.py"
                            ["pipeline.paf"; "run0001"; "-l"; "0"] 3
                            MPI_INFO_NULL 0 MPI_COMM_WORLD).
Proof.
  assert (H : 0 <= nSlices ready) by (cbn; lia).
  split; [exact H |].
  exact (proj1 (startSlices_spawns_nSlices_workers calm ready H)).
Defined.

(** C6, where the code departs from it: the workers are to be given the
    log verbosity level, and startSlices writes the threshold into the
    stream lev, but the fourth element of argv is lev.c_str(), which
    std::ostringstream does not have; read as lev.str().c_str() it points
    into a string that is gone when MPI_Comm_spawn reads argv.  In an environment where
    nothing of the stream is left there, with threshold 3, the spawn of the
    three slices succeeds and startSlices returns, and the argument after
    "-l" is empty: the level 3 is not among the arguments. *)
Theorem startSlices_level_not_in_argv :
  let argv := ["pipeline.paf"; "run0001"; "-l"; ""] in
  let c := MPI_Comm_spawn "runSlice.py" argv 3 MPI_INFO_NULL 0
                          MPI_COMM_WORLD in
  run startSlices stale ready
  = Returned tt (mkMachine ready [EvCall c MPI_SUCCESS])
  /\ decimal (log_threshold stale) = "3"
  /\ ~ In (decimal (log_threshold stale)) argv.
Proof.
  cbn zeta. split; [reflexivity | split; [reflexivity |]].
  cbn [In]. intros [H | [H | [H | [H | H]]]];
    solve [discriminate H | exact H].
Qed.

(** ** Errors and exits *)

Lemma fails_cleanly_undefined (t : list Event) :
  after_failure t = None -> fails_cleanly (Undefined t).
Proof.
  intros Hnone. split.
  - intros after Hafter. cbn in Hafter. congruence.
  - intros code t' Hexit. discriminate Hexit.
Qed.

Lemma fails_cleanly_initializeMPI (w : World) (p : Pipeline) :
  fails_cleanly (run initializeMPI w p).
Proof.
  unfold run. rewrite initializeMPI_run. cbn zeta.
  unfold passed, stored, fatal. cbn [self past app].
  unfold fails_cleanly.
  repeat (split_status; try solve [fails_cleanly_leaf]).
  destruct (universe_attr w); fails_cleanly_leaf.
Qed.

Lemma fails_cleanly_startSlices (w : World) (p : Pipeline) :
  fails_cleanly (run startSlices w p).
Proof.
  unfold run. destruct (Z_lt_ge_dec (nSlices p) 0) as [Hneg | Hpos].
  - rewrite startSlices_undefined by exact Hneg.
    apply fails_cleanly_undefined. reflexivity.
  - rewrite startSlices_run by (cbn [self]; lia). cbn zeta.
    unfold stored, fatal. cbn [self past app]. unfold fails_cleanly.
    split_status; fails_cleanly_leaf.
Qed.

Lemma fails_cleanly_invokeContinue (w : World) (p : Pipeline) :
  fails_cleanly (run invokeContinue w p).
Proof.
  unfold run. destruct (Z_le_gt_dec (bufferSize p) 8) as [Hsmall | Hlarge].
  - rewrite invokeContinue_undefined by exact Hsmall.
    apply fails_cleanly_undefined. reflexivity.
  - rewrite invokeContinue_run by (cbn [self]; lia). cbn zeta.
    unfold passed, fatal. cbn [self past app]. unfold fails_cleanly.
    split_status; fails_cleanly_leaf.
Qed.

Lemma fails_cleanly_invokeShutdown (w : World) (p : Pipeline) :
  fails_cleanly (run invokeShutdown w p).
Proof.
  unfold run. destruct (Z_le_gt_dec (bufferSize p) 8) as [Hsmall | Hlarge].
  - rewrite invokeShutdown_undefined by exact Hsmall.
    apply fails_cleanly_undefined. reflexivity.
  - rewrite invokeShutdown_run by (cbn [self]; lia). cbn zeta.
    unfold passed, fatal. cbn [self past app]. unfold fails_cleanly.
    split_status; fails_cleanly_leaf.
Qed.

Lemma fails_cleanly_invokeSyncSlices (w : World) (p : Pipeline) :
  fails_cleanly (run invokeSyncSlices w p).
Proof.
  unfold run. destruct (Z_le_gt_dec (bufferSize p) 4) as [Hsmall | Hlarge].
  - rewrite invokeSyncSlices_undefined by exact Hsmall.
    apply fails_cleanly_undefined. reflexivity.
  - rewrite invokeSyncSlices_run by (cbn [self]; lia). cbn zeta.
    unfold logged, passed, fatal. cbn [self past app]. unfold fails_cleanly.
    repeat (split_status; try solve [fails_cleanly_leaf]).
Qed.

Lemma fails_cleanly_invokeProcess (iStage : Z) (w : World) (p : Pipeline) :
  fails_cleanly (run (invokeProcess iStage) w p).
Proof.
  unfold run.
  destruct (Z_le_gt_dec (bufferSize p) 7) as [Hsmall | Hlarge];
    [| destruct (Z_lt_ge_dec (nSlices p) 0) as [Hneg | Hpos]].
  - rewrite invokeProcess_undefined by (left; exact Hsmall).
    apply fails_cleanly_undefined. reflexivity.
  - rewrite invokeProcess_undefined by (right; exact Hneg).
    apply fails_cleanly_undefined. reflexivity.
  - rewrite invokeProcess_run by (cbn [self]; lia). cbn zeta.
    unfold passed, fatal. cbn [self past app]. unfold fails_cleanly.
    repeat (split_status; try solve [fails_cleanly_leaf]).
Qed.

(** X15: for each member function that calls MPI and tests the status
    (initializeMPI, startSlices, and the four invoke functions): a call
    that does not return MPI_SUCCESS is followed by MPI_Finalize and
    nothing else (no further broadcast), and the process exits with code
    1; the process is left with code 1 only, and only after such a call.
    shutdown calls MPI_Finalize and exits with code 0. *)
Theorem failure_exits_1_shutdown_exits_0 (o : Operation) (w : World)
        (p : Pipeline) :
  let r := run (perform o) w p in
  (forall after, after_failure (trace r) = Some after ->
     (exists fin, after = [EvCall MPI_Finalize fin])
     /\ broadcasts after = []
     /\ r = Exited 1 (trace r))
  /\ (forall code t, r = Exited code t ->
        code = 1 /\ after_failure t <> None)
  /\ run shutdown w p
     = Exited 0 [EvCall MPI_Finalize (mpi_status w [] MPI_Finalize)].
Proof.
  cbn zeta.
  assert (H : fails_cleanly (run (perform o) w p)).
  { destruct o as [| | c]; cbn [perform].
    - apply fails_cleanly_initializeMPI.
    - apply fails_cleanly_startSlices.
    - destruct c; cbn [send].
      + apply fails_cleanly_invokeContinue.
      + apply fails_cleanly_invokeShutdown.
      + apply fails_cleanly_invokeSyncSlices.
      + apply fails_cleanly_invokeProcess. }
  destruct H as [Hfail Hexit]. split; [| split].
  - intros after Hafter. destruct (Hfail after Hafter) as [[fin Hfin] Hr].
    split; [exists fin; exact Hfin |]. split; [| exact Hr].
    rewrite Hfin. reflexivity.
  - exact Hexit.
  - reflexivity.
Qed.

Lemma failure_exits_1_shutdown_exits_0_witness :
  after_failure (trace (run (perform InitializeMPI) broken ready))
  = Some [EvCall MPI_Finalize 0]
  /\ run (perform InitializeMPI) broken ready
     = Exited 1 [EvCall MPI_Init 13; EvCall MPI_Finalize 0].
Proof.
  assert (H : after_failure (trace (run (perform InitializeMPI) broken ready))
              = Some [EvCall MPI_Finalize 0]) by reflexivity.
  split; [exact H |].
  destruct (failure_exits_1_shutdown_exits_0 InitializeMPI broken ready)
    as [Hfail _].
  destruct (Hfail _ H) as [_ [_ Hr]]. exact Hr.
Defined.

(** C5, where the code departs from it: MPI_Attr_get reports through its
    flag whether MPI_UNIVERSE_SIZE is set, and initializeMPI declares the
    flag, passes it and never tests it.  When the attribute is not set and
    the four MPI calls return MPI_SUCCESS, initializeMPI reads through the
    pointer that was given no value: MPI_Finalize is not called and the
    process does not exit with code 1. *)
Theorem initializeMPI_unset_attribute_is_not_reported (w : World)
        (p : Pipeline) :
  universe_attr w = None ->
  dependable w ->
  let r := run initializeMPI w p in
  r = Undefined (succeeded bootstrap_calls)
  /\ ~ In MPI_Finalize (calls (trace r))
  /\ (forall code t, r <> Exited code t)
  /\ after_failure (trace r) = None.
Proof.
  intros Hattr Hw. cbn zeta. unfold run. rewrite initializeMPI_run.
  cbn zeta. unfold passed, stored. cbn [self past app].
  rewrite Hattr, !Hw. cbn [Z.eqb MPI_SUCCESS].
  split; [reflexivity |]. split; [| split].
  - cbn [trace succeeded bootstrap_calls map calls In].
    intros [H | [H | [H | [H | H]]]]; solve [discriminate H | exact H].
  - discriminate.
  - reflexivity.
Qed.

Lemma initializeMPI_unset_attribute_is_not_reported_witness :
  universe_attr unset = None
  /\ dependable unset
  /\ run initializeMPI unset ready = Undefined (succeeded bootstrap_calls).
Proof.
  assert (Hw : dependable unset) by (intros h c; reflexivity).
  split; [reflexivity |]. split; [exact Hw |].
  exact (proj1 (initializeMPI_unset_attribute_is_not_reported
                  unset ready eq_refl Hw)).
Defined.

(** ** Frame *)

Lemma returns_frame_continue (w : World) (p : Pipeline) (m : Machine) :
  run invokeContinue w p = Returned tt m ->
  self m = set_mpiError MPI_SUCCESS p.
Proof.
  unfold run. destruct (Z_le_gt_dec (bufferSize p) 8) as [Hsmall | Hlarge].
  - rewrite invokeContinue_undefined by exact Hsmall. discriminate.
  - rewrite invokeContinue_run by (cbn [self]; lia). cbn zeta.
    unfold passed. cbn [self past app].
    match goal with
    | |- context [mpi_status w ?h ?c =? MPI_SUCCESS] =>
        destruct (Z.eqb_spec (mpi_status w h c) MPI_SUCCESS) as [E | E]
    end; [| discriminate].
    intros Hm. injection Hm as <-. cbn [self]. rewrite E. reflexivity.
Qed.

Lemma returns_frame_shutdown (w : World) (p : Pipeline) (m : Machine) :
  run invokeShutdown w p = Returned tt m ->
  self m = set_mpiError MPI_SUCCESS p.
Proof.
  unfold run. destruct (Z_le_gt_dec (bufferSize p) 8) as [Hsmall | Hlarge].
  - rewrite invokeShutdown_undefined by exact Hsmall. discriminate.
  - rewrite invokeShutdown_run by (cbn [self]; lia). cbn zeta.
    unfold passed. cbn [self past app].
    match goal with
    | |- context [mpi_status w ?h ?c =? MPI_SUCCESS] =>
        destruct (Z.eqb_spec (mpi_status w h c) MPI_SUCCESS) as [E | E]
    end; [| discriminate].
    intros Hm. injection Hm as <-. cbn [self]. rewrite E. reflexivity.
Qed.

Lemma returns_frame_sync (w : World) (p : Pipeline) (m : Machine) :
  run invokeSyncSlices w p = Returned tt m ->
  self m = set_mpiError MPI_SUCCESS p.
Proof.
  unfold run. destruct (Z_le_gt_dec (bufferSize p) 4) as [Hsmall | Hlarge].
  - rewrite invokeSyncSlices_undefined by exact Hsmall. discriminate.
  - rewrite invokeSyncSlices_run by (cbn [self]; lia). cbn zeta.
    unfold logged, passed. cbn [self past app].
    split_status; [| discriminate].
    match goal with
    | |- context [mpi_status w ?h ?c =? MPI_SUCCESS] =>
        destruct (Z.eqb_spec (mpi_status w h c) MPI_SUCCESS) as [Ebar | Ebar]
    end; [| discriminate].
    intros Hm. injection Hm as <-. cbn [self]. rewrite Ebar. reflexivity.
Qed.

Lemma returns_frame_process (iStage : Z) (w : World) (p : Pipeline)
      (m : Machine) :
  run (invokeProcess iStage) w p = Returned tt m ->
  self m = set_mpiError MPI_SUCCESS p.
Proof.
  unfold run.
  destruct (Z_le_gt_dec (bufferSize p) 7) as [Hsmall | Hlarge];
    [| destruct (Z_lt_ge_dec (nSlices p) 0) as [Hneg | Hpos]].
  - rewrite invokeProcess_undefined by (left; exact Hsmall). discriminate.
  - rewrite invokeProcess_undefined by (right; exact Hneg). discriminate.
  - rewrite invokeProcess_run by (cbn [self]; lia). cbn zeta.
    unfold passed. cbn [self past app].
    split_status; [| discriminate].
    split_status; [| discriminate].
    match goal with
    | |- context [mpi_status w ?h ?c =? MPI_SUCCESS] =>
        destruct (Z.eqb_spec (mpi_status w h c) MPI_SUCCESS) as [Ebar | Ebar]
    end; [| discriminate].
    intros Hm. injection Hm as <-. cbn [self]. rewrite Ebar. reflexivity.
Qed.

(** C10: whenever invokeProcess, invokeSyncSlices, invokeContinue or
    invokeShutdown returns, from any object, the object is the one before
    the call with mpiError set to MPI_SUCCESS: universeSize, nSlices,
    bufferSize, the run identifier and the policy name (and rank, size and
    the intercommunicator) are as they were. *)
Theorem send_changes_mpiError_only (c : Command) (w : World) (p : Pipeline)
        (m : Machine) :
  run (send c) w p = Returned tt m ->
  universeSize (self m) = universeSize p
  /\ nSlices (self m) = nSlices p
  /\ bufferSize (self m) = bufferSize p
  /\ _runId (self m) = _runId p
  /\ _policyName (self m) = _policyName p
  /\ self m = set_mpiError MPI_SUCCESS p.
Proof.
  intros Hm.
  assert (Hself : self m = set_mpiError MPI_SUCCESS p).
  { destruct c as [| | | iStage]; cbn [send] in Hm.
    - exact (returns_frame_continue w p m Hm).
    - exact (returns_frame_shutdown w p m Hm).
    - exact (returns_frame_sync w p m Hm).
    - exact (returns_frame_process iStage w p m Hm). }
  rewrite Hself. repeat split.
Qed.

Lemma send_changes_mpiError_only_witness :
  exists m, run (send (PROCESS 0)) calm (set_mpiError 5 ready) = Returned tt m
            /\ self m = ready.
Proof.
  set (comm := Intercomm 1).
  set (b := MPI_Bcast (Chars (command_buffer calm [] 256 "PROCESS")) 256
                      MPI_CHAR MPI_ROOT comm).
  set (s := MPI_Bcast (Ints [0]) 1 MPI_INT MPI_ROOT comm).
  set (m := mkMachine ready [EvCall b MPI_SUCCESS; EvCall s MPI_SUCCESS;
                             EvCall (MPI_Barrier comm) MPI_SUCCESS]).
  assert (H : run (send (PROCESS 0)) calm (set_mpiError 5 ready)
              = Returned tt m) by (vm_compute; reflexivity).
  exists m. split; [exact H |].
  exact (proj2 (proj2 (proj2 (proj2 (proj2
           (send_changes_mpiError_only (PROCESS 0) calm
              (set_mpiError 5 ready) m H)))))).
Defined.

(** ** One command, one buffer *)

Lemma calls_app (t1 t2 : list Event) :
  calls (t1 ++ t2) = calls t1 ++ calls t2.
Proof.
  induction t1 as [| [c st | lvl fmt arg] t1 IH]; cbn [calls app].
  - reflexivity.
  - rewrite IH. reflexivity.
  - exact IH.
Qed.

Lemma broadcasts_app (t1 t2 : list Event) :
  broadcasts (t1 ++ t2) = broadcasts t1 ++ broadcasts t2.
Proof. unfold broadcasts. rewrite calls_app. apply filter_app. Qed.

(** With the buffer size configurePipeline sets, a member function that
    sends a command has defined behaviour and broadcasts one char buffer:
    the one the literal was copied into. *)
Lemma send_broadcasts_command_buffer (c : Command) (w : World) (p : Pipeline) :
  bufferSize p = 256 ->
  0 <= nSlices p ->
  exists h,
    char_broadcasts (trace (run (send c) w p))
    = [MPI_Bcast (Chars (command_buffer w h 256 (command_name c))) 256
                 MPI_CHAR MPI_ROOT (sliceIntercomm p)]
    /\ forall t, run (send c) w p <> Undefined t.
Proof.
  intros Hbs Hns. unfold run.
  destruct c as [| | | iStage]; cbn [send command_name].
  - exists []. rewrite invokeContinue_run by (cbn [self]; lia).
    cbn zeta. unfold passed, fatal. cbn [self past app]. rewrite Hbs.
    split_status; split; solve [reflexivity | discriminate].
  - exists []. rewrite invokeShutdown_run by (cbn [self]; lia).
    cbn zeta. unfold passed, fatal. cbn [self past app]. rewrite Hbs.
    split_status; split; solve [reflexivity | discriminate].
  - eexists. rewrite invokeSyncSlices_run by (cbn [self]; lia).
    cbn zeta. unfold logged, passed, fatal. cbn [self past app]. rewrite Hbs.
    repeat split_status; split; solve [reflexivity | discriminate].
  - exists []. rewrite invokeProcess_run by (cbn [self]; lia).
    cbn zeta. unfold passed, fatal. cbn [self past app]. rewrite Hbs.
    repeat split_status; split; solve [reflexivity | discriminate].
Qed.

(** With a buffer that cannot hold the name and its terminator, the
    member function for a command stops before any MPI call, with no
    defined behaviour: std::strcpy has written beyond procCommand. *)
Lemma send_overruns_small_buffer (c : Command) (w : World) (p : Pipeline) :
  bufferSize p < strlen (command_name c) + 1 ->
  exists t, run (send c) w p = Undefined t /\ calls t = [].
Proof.
  intros Hsmall. unfold run.
  destruct c as [| | | iStage]; cbn [send command_name] in *;
    unfold strlen in Hsmall; cbn [String.length] in Hsmall.
  - rewrite invokeContinue_undefined by (cbn [self]; lia).
    eexists. split; reflexivity.
  - rewrite invokeShutdown_undefined by (cbn [self]; lia).
    eexists. split; reflexivity.
  - rewrite invokeSyncSlices_undefined by (cbn [self]; lia).
    eexists. split; reflexivity.
  - rewrite invokeProcess_undefined by (left; cbn [self]; lia).
    eexists. split; reflexivity.
Qed.

(** C7, as the code has it: for each of CONTINUE, SHUTDOWN, SYNC and
    PROCESS, the name with its terminator is shorter than the 256 chars
    configurePipeline sets as bufferSize; so after configurePipeline the
    member function that sends the command has defined behaviour
    (std::strcpy stays inside the array), and the buffer it broadcasts has
    256 chars, begins with the whole name and the terminator, and reads
    back as the name.  The code has no framing error and makes no test of
    the length: on an object whose buffer cannot hold the name, the member
    function writes beyond the buffer and stops there with no defined
    behaviour, before any MPI call; it reports nothing and does not
    exit. *)
Theorem command_name_fits_buffer (c : Command) (w : World) (p : Pipeline) :
  0 <= nSlices p ->
  let r := run (configurePipeline ;; send c) w p in
  strlen (command_name c) + 1 < 256
  /\ (forall t, r <> Undefined t)
  /\ (exists buf,
        char_broadcasts (trace r)
        = [MPI_Bcast (Chars buf) 256 MPI_CHAR MPI_ROOT (sliceIntercomm p)]
        /\ Z.of_nat (List.length buf) = 256
        /\ firstn (String.length (command_name c) + 1) buf
           = list_ascii_of_string (command_name c) ++ [NUL]
        /\ c_str buf = command_name c)
  /\ (forall p',
        bufferSize p' < strlen (command_name c) + 1 ->
        exists t, run (send c) w p' = Undefined t /\ calls t = []).
Proof.
  intros Hns. cbn zeta.
  assert (Hfit : strlen (command_name c) + 1 < 256) by (destruct c; cbn; lia).
  change (run (configurePipeline ;; send c) w p)
    with (run (send c) w (set_bufferSize 256 p)).
  destruct (send_broadcasts_command_buffer c w (set_bufferSize 256 p))
    as [h [Hb Hdef]]; [reflexivity | exact Hns |].
  split; [exact Hfit |]. split; [exact Hdef |]. split.
  - exists (command_buffer w h 256 (command_name c)).
    split; [exact Hb |].
    split; [apply command_buffer_length; lia |].
    split; [apply command_buffer_head | apply command_buffer_c_str].
  - intros p'. apply send_overruns_small_buffer.
Qed.

Lemma command_name_fits_buffer_witness :
  0 <= nSlices ready
  /\ forall t, run (configurePipeline ;; send SHUTDOWN) calm ready
               <> Undefined t.
Proof.
  assert (H : 0 <= nSlices ready) by (cbn; lia).
  split; [exact H |].
  exact (proj1 (proj2 (command_name_fits_buffer SHUTDOWN calm ready H))).
Defined.

(** C7, as stated, fails in its last part: on an object whose bufferSize
    is 4, the name SHUTDOWN with its terminator, 9 chars, exceeds the
    buffer, and invokeShutdown does not end in an error: it has no defined
    behaviour from the copy on, with no MPI call made, MPI_Finalize not
    called and no exit. *)
Lemma oversized_name_is_not_an_error :
  bufferSize (set_bufferSize 4 ready) < strlen (command_name SHUTDOWN) + 1
  /\ run (send SHUTDOWN) calm (set_bufferSize 4 ready) = Undefined []
  /\ forall code t, run (send SHUTDOWN) calm (set_bufferSize 4 ready)
                    <> Exited code t.
Proof.
  split; [cbn; lia |]. split; [reflexivity | discriminate].
Qed.

(** C8, as the code has it: every member function that sends a command
    broadcasts one buffer of 256 chars; it begins with the command's name
    and the terminator, and its other chars are those the automatic array
    held before the copy, which the code does not write. *)
Theorem broadcast_buffer_is_name_then_stack (c : Command) (w : World)
        (p : Pipeline) :
  bufferSize p = 256 ->
  0 <= nSlices p ->
  let r := run (send c) w p in
  let n := (String.length (command_name c) + 1)%nat in
  exists h buf,
    char_broadcasts (trace r)
    = [MPI_Bcast (Chars buf) 256 MPI_CHAR MPI_ROOT (sliceIntercomm p)]
    /\ Z.of_nat (List.length buf) = 256
    /\ firstn n buf = list_ascii_of_string (command_name c) ++ [NUL]
    /\ skipn n buf = skipn n (indeterminate w h 256)
    /\ c_str buf = command_name c.
Proof.
  intros Hbs Hns. cbn zeta.
  destruct (send_broadcasts_command_buffer c w p Hbs Hns) as [h [Hb _]].
  exists h, (command_buffer w h 256 (command_name c)).
  split; [exact Hb |].
  split; [apply command_buffer_length; destruct c; cbn; lia |].
  split; [apply command_buffer_head |].
  split; [apply command_buffer_tail | apply command_buffer_c_str].
Qed.

Lemma broadcast_buffer_is_name_then_stack_witness :
  bufferSize ready = 256
  /\ 0 <= nSlices ready
  /\ exists h buf,
       char_broadcasts (trace (run (send SYNC) calm ready))
       = [MPI_Bcast (Chars buf) 256 MPI_CHAR MPI_ROOT (Intercomm 1)]
       /\ Z.of_nat (List.length buf) = 256
       /\ firstn 5 buf = list_ascii_of_string "SYNC" ++ [NUL]
       /\ skipn 5 buf = skipn 5 (indeterminate calm h 256)
       /\ c_str buf = "SYNC".
Proof.
  assert (H : 0 <= nSlices ready) by (cbn; lia).
  split; [reflexivity |]. split; [exact H |].
  exact (broadcast_buffer_is_name_then_stack SYNC calm ready eq_refl H).
Defined.

(** C8, as stated, fails: two runs of invokeShutdown on the same object
    that differ only in what the stack held broadcast different buffers,
    and the char after the terminator is neither zero nor a space. *)
Lemma broadcast_buffer_depends_on_stack :
  char_broadcasts (trace (run invokeShutdown calm ready))
  <> char_broadcasts (trace (run invokeShutdown calm' ready))
  /\ exists buf,
       char_broadcasts (trace (run invokeShutdown calm ready))
       = [MPI_Bcast (Chars buf) 256 MPI_CHAR MPI_ROOT (Intercomm 1)]
       /\ nth 9 buf NUL = "x"%char.
Proof.
  split.
  - intros Heq. vm_compute in Heq. discriminate Heq.
  - eexists. split; [vm_compute; reflexivity | reflexivity].
Qed.

(** C9, as the code has it: nothing of the program runs after shutdown,
    whose effect is MPI_Finalize and exit(0), so whatever would follow it
    does no MPI call and the exit code stays 0; invokeShutdown keeps no
    record of having run: called again once it returned, it broadcasts
    SHUTDOWN again. *)
Theorem shutdown_ends_the_process_invokeShutdown_repeats
        (w : World) (p : Pipeline) (next : Proc unit) :
  run (shutdown ;; next) w p
  = Exited 0 [EvCall MPI_Finalize (mpi_status w [] MPI_Finalize)]
  /\ (bufferSize p = 256 ->
      forall m, run invokeShutdown w p = Returned tt m ->
        broadcasts (trace (invokeShutdown w m))
        = broadcasts (past m)
            ++ [MPI_Bcast (Chars (command_buffer w (past m) 256 "SHUTDOWN"))
                          256 MPI_CHAR MPI_ROOT (sliceIntercomm p)]).
Proof.
  split; [reflexivity |].
  intros Hbs m Hm.
  pose proof (returns_frame_shutdown w p m Hm) as Hself.
  rewrite invokeShutdown_run by (rewrite Hself; cbn; lia).
  cbn zeta. rewrite Hself.
  cbn [bufferSize sliceIntercomm set_mpiError]. rewrite Hbs.
  unfold passed, fatal.
  split_status; cbn [trace past]; rewrite !broadcasts_app;
    [reflexivity | apply app_nil_r].
Qed.

Lemma shutdown_ends_the_process_invokeShutdown_repeats_witness :
  bufferSize ready = 256
  /\ exists m, run invokeShutdown calm ready = Returned tt m
               /\ List.length (broadcasts (trace (invokeShutdown calm m)))
                  = 2%nat.
Proof.
  split; [reflexivity |].
  eexists. split; [reflexivity |].
  rewrite (proj2 (shutdown_ends_the_process_invokeShutdown_repeats
                    calm ready (ret tt)) eq_refl _ eq_refl).
  reflexivity.
Defined.

(** C9, as stated, fails: a second invokeShutdown returns as the first did
    and broadcasts SHUTDOWN a second time; and a run that asks twice for
    the fleet to be shut down ends in the first shutdown with exit code 0,
    which is the code of a clean end, not of an error. *)
Lemma second_invokeShutdown_broadcasts_again :
  let b := MPI_Bcast (Chars (command_buffer calm [] 256 "SHUTDOWN")) 256
                     MPI_CHAR MPI_ROOT (Intercomm 1) in
  run (invokeShutdown ;; invokeShutdown) calm ready
  = Returned tt (mkMachine ready [EvCall b MPI_SUCCESS; EvCall b MPI_SUCCESS])
  /\ run (shutdownFleet ;; shutdownFleet) calm ready
     = Exited 0 [EvCall b MPI_SUCCESS; EvCall MPI_Finalize MPI_SUCCESS].
Proof. split; vm_compute; reflexivity. Qed.

(** ** Bootstrap *)

Lemma initialize_run (w : World) (m : Machine) :
  initialize w m =
  match initializeMPI w m with
  | Returned _ m' =>
      Returned tt (mkMachine (set_bufferSize 256 (self m')) (past m'))
  | Exited code t => Exited code t
  | Undefined t => Undefined t
  end.
Proof.
  unfold initialize. cbn [bind ret Monad_Proc]. unfold Proc_bind at 1.
  destruct (initializeMPI w m); reflexivity.
Qed.

(** The object and the history when initialize has returned. *)
Lemma initialize_returned (w : World) (p : Pipeline) (m : Machine) :
  run initialize w p = Returned tt m ->
  past m = succeeded bootstrap_calls
  /\ exists u, universe_attr w = Some u
       /\ self m = mkPipeline (_pid p) (_evbHost p) (_runId p)
                              (_policyName p) MPI_SUCCESS (world_rank w)
                              (world_size w) u (Int.sub u 1) 256
                              (sliceIntercomm p).
Proof.
  unfold run. rewrite initialize_run, initializeMPI_run. cbn zeta.
  unfold passed, stored. cbn [self past app]. intros Hm.
  repeat match type of Hm with
         | context [?st =? MPI_SUCCESS] =>
             let E := fresh "E" in
             destruct (Z.eqb_spec st MPI_SUCCESS) as [E | E];
             [rewrite ?E in * | discriminate Hm]
         end.
  destruct (universe_attr w) as [u |]; [| discriminate Hm].
  injection Hm as <-. split; [reflexivity |].
  exists u. split; reflexivity.
Qed.

Lemma initialize_does_return (w : World) (p : Pipeline) :
  dependable w -> universe_attr w <> None ->
  exists m, run initialize w p = Returned tt m.
Proof.
  unfold run. rewrite initialize_run, initializeMPI_run. cbn zeta.
  unfold passed, stored. cbn [self past app].
  intros Hw Hattr. rewrite !Hw. cbn [Z.eqb MPI_SUCCESS].
  destruct (universe_attr w) as [u |]; [| contradiction].
  eexists. reflexivity.
Qed.



(** X2: in every environment, the MPI calls of initialize are an initial
    part of MPI_Init, MPI_Comm_rank, MPI_Comm_size, MPI_Attr_get, followed
    by MPI_Finalize exactly when the process exits, which it does with code
    1; so initialize never spawns, broadcasts or waits at a barrier. *)
Theorem initialize_calls_in_order (w : World) (p : Pipeline) :
  let r := run initialize w p in
  exists n,
    calls (trace r)
    = firstn n bootstrap_calls
        ++ match r with
           | Exited _ _ => [MPI_Finalize]
           | _ => []
           end
    /\ (forall code t, r = Exited code t -> code = 1)
    /\ collectives (trace r) = [].
Proof.
  cbn zeta. unfold run. rewrite initialize_run, initializeMPI_run. cbn zeta.
  unfold passed, stored, fatal. cbn [self past app].
  split_status; [| exists 1%nat; repeat split; congruence].
  split_status; [| exists 2%nat; repeat split; congruence].
  split_status; [| exists 3%nat; repeat split; congruence].
  split_status; [| exists 4%nat; repeat split; congruence].
  exists 4%nat. destruct (universe_attr w); repeat split; congruence.
Qed.

Lemma bind_returned {A B} (c : Proc A) (k : A -> Proc B) (w : World)
      (m m' : Machine) (a : A) :
  c w m = Returned a m' -> Proc_bind c k w m = k a w m'.
Proof. intros E. unfold Proc_bind. rewrite E. reflexivity. Qed.

Lemma bind_not_returned {A B} (c : Proc A) (k : A -> Proc B) (w : World)
      (m : Machine) :
  (forall a m', c w m <> Returned a m') ->
  forall b m', Proc_bind c k w m <> Returned b m'.
Proof.
  intros Hc b m'. unfold Proc_bind.
  destruct (c w m) as [a m1 | |]; [| discriminate | discriminate].
  exfalso. exact (Hc a m1 eq_refl).
Qed.

(** X3: a universe of size zero or less gives a negative nSlices, and
    startSlices then declares [int errcodes[nSlices]] with a negative
    bound: after initialize, startSlices has no defined behaviour and
    returns in no environment; when the bootstrap calls succeed, it stops
    before MPI_Comm_spawn, with no worker spawned. *)
Theorem startSlices_undefined_for_empty_universe (w : World) (p : Pipeline)
        (u : Z) :
  universe_attr w = Some u ->
  Int.min_signed < u <= 0 ->
  (forall m, run (initialize ;; startSlices) w p <> Returned tt m)
  /\ (dependable w ->
      run (initialize ;; startSlices) w p
      = Undefined (succeeded bootstrap_calls)).
Proof.
  intros Hattr Hu.
  assert (Hstep : forall m, run initialize w p = Returned tt m ->
                            startSlices w m = Undefined (past m)).
  { intros m Hm. apply startSlices_undefined.
    destruct (initialize_returned w p m Hm) as [_ [u' [Hu' Hself]]].
    rewrite Hself. cbn [nSlices]. assert (u' = u) by congruence. subst u'.
    rewrite Int_sub_exact;
      unfold Int.in_range, Int.min_signed, Int.max_signed in *; lia. }
  unfold run in *. cbn [bind ret Monad_Proc]. split.
  - intros m. destruct (initialize w (mkMachine p [])) as [[] m1 | |] eqn:E.
    + rewrite (bind_returned _ _ _ _ _ _ E), (Hstep m1 eq_refl). discriminate.
    + unfold Proc_bind. rewrite E. discriminate.
    + unfold Proc_bind. rewrite E. discriminate.
  - intros Hw.
    destruct (initialize_does_return w p Hw) as [m Hm]; [congruence |].
    destruct (initialize_returned w p m Hm) as [Hpast _].
    unfold run in Hm. rewrite (bind_returned _ _ _ _ _ _ Hm), (Hstep m Hm).
    rewrite Hpast. reflexivity.
Qed.

Lemma startSlices_undefined_for_empty_universe_witness :
  universe_attr empty = Some 0
  /\ Int.min_signed < 0 <= 0
  /\ run (initialize ;; startSlices)
         empty ready
     = Undefined (succeeded bootstrap_calls).
Proof.
  assert (Hr : Int.min_signed < 0 <= 0) by (unfold Int.min_signed; lia).
  split; [reflexivity |]. split; [exact Hr |].
  apply (startSlices_undefined_for_empty_universe
           empty ready 0 eq_refl Hr).
  intros h c. reflexivity.
Defined.

(** ** Commands in sequence *)

Lemma names_sent_app (t1 t2 : list Event) :
  names_sent (t1 ++ t2) = names_sent t1 ++ names_sent t2.
Proof.
  induction t1 as [| [c st | lvl fmt arg] t1 IH]; cbn [names_sent app].
  - reflexivity.
  - destruct c as [| | | | | [buf | zs] | |]; cbn [app]; now rewrite ?IH.
  - exact IH.
Qed.

Lemma stages_sent_app (t1 t2 : list Event) :
  stages_sent (t1 ++ t2) = stages_sent t1 ++ stages_sent t2.
Proof.
  induction t1 as [| [c st | lvl fmt arg] t1 IH]; cbn [stages_sent app].
  - reflexivity.
  - destruct c as [| | | | | [buf | zs] | |]; rewrite ?IH; try reflexivity.
    apply app_assoc.
  - exact IH.
Qed.

Ltac seq_norm :=
  cbn [trace past self];
  rewrite ?names_sent_app, ?stages_sent_app;
  cbn [names_sent stages_sent];
  rewrite ?app_nil_r.

Ltac next_status E :=
  match goal with
  | |- context [mpi_status ?w ?h ?c =? MPI_SUCCESS] =>
      destruct (Z.eqb_spec (mpi_status w h c) MPI_SUCCESS) as [E | E];
      [rewrite E |]
  end.

Ltac step_failed E :=
  split;
  [ seq_norm; reflexivity
  | split;
    [ discriminate
    | split;
      [ discriminate
      | let Hw := fresh "Hw" in intros Hw; exfalso; apply E; apply Hw ] ] ].

Ltac step_returned :=
  split;
  [ seq_norm; reflexivity
  | split;
    [ discriminate
    | split;
      [ let m' := fresh "m'" in
        let Hm' := fresh "Hm'" in
        intros m' Hm'; injection Hm' as <-; seq_norm;
        repeat split; reflexivity
      | intros _; eexists; reflexivity ] ] ].

(** One command, from any point of a run at which the buffer size is the
    configured one and nSlices is not negative. *)
Lemma send_step (c : Command) (w : World) (m : Machine) :
  bufferSize (self m) = 256 ->
  0 <= nSlices (self m) ->
  names_sent (trace (send c w m)) = names_sent (past m) ++ [command_name c]
  /\ (forall t, send c w m <> Undefined t)
  /\ (forall m', send c w m = Returned tt m' ->
        self m' = set_mpiError MPI_SUCCESS (self m)
        /\ names_sent (past m') = names_sent (past m) ++ [command_name c]
        /\ stages_sent (past m')
           = stages_sent (past m) ++ stage_indices [c])
  /\ (dependable w -> exists m', send c w m = Returned tt m').
Proof.
  intros Hbs Hns.
  destruct c as [| | | iStage]; cbn [send command_name stage_indices].
  - rewrite invokeContinue_run by lia. cbn zeta. unfold passed, fatal.
    next_status E; [step_returned | step_failed E].
  - rewrite invokeShutdown_run by lia. cbn zeta. unfold passed, fatal.
    next_status E; [step_returned | step_failed E].
  - rewrite invokeSyncSlices_run by lia. cbn zeta.
    unfold logged, passed, fatal. cbn [self past].
    next_status E; [| step_failed E].
    next_status E'; [step_returned | step_failed E'].
  - rewrite invokeProcess_run by lia. cbn zeta. unfold passed, fatal.
    cbn [self past].
    next_status E; [| step_failed E].
    next_status E'; [| step_failed E'].
    next_status E''; [step_returned | step_failed E''].
Qed.

Lemma stage_indices_cons (c : Command) (rest : list Command) :
  stage_indices (c :: rest) = stage_indices [c] ++ stage_indices rest.
Proof. destruct c; reflexivity. Qed.

(** A list of commands, from any point of a run. *)
Lemma send_all_from (cs : list Command) (w : World) :
  forall m,
    bufferSize (self m) = 256 ->
    0 <= nSlices (self m) ->
    (forall t, send_all cs w m <> Undefined t)
    /\ (exists k, names_sent (trace (send_all cs w m))
                  = names_sent (past m) ++ map command_name (firstn k cs))
    /\ (forall m', send_all cs w m = Returned tt m' ->
          names_sent (past m') = names_sent (past m) ++ map command_name cs
          /\ stages_sent (past m') = stages_sent (past m) ++ stage_indices cs
          /\ set_mpiError MPI_SUCCESS (self m')
             = set_mpiError MPI_SUCCESS (self m))
    /\ (dependable w -> exists m', send_all cs w m = Returned tt m').
Proof.
  induction cs as [| c rest IH]; intros m Hbs Hns.
  - cbn [send_all ret Monad_Proc]. unfold Proc_ret. cbn [trace].
    split; [discriminate |]. split; [exists 0%nat; now rewrite app_nil_r |].
    split.
    + intros m' Hm'. injection Hm' as <-. rewrite !app_nil_r. repeat split.
    + intros _. eexists. reflexivity.
  - destruct (send_step c w m Hbs Hns) as [Hnames [Hdef [Hret Hdoes]]].
    cbn [send_all bind Monad_Proc]. unfold Proc_bind.
    destruct (send c w m) as [[] m1 | code t | t] eqn:E.
    + destruct (Hret m1 eq_refl) as [Hself [Hn1 Hs1]].
      assert (Hbs1 : bufferSize (self m1) = 256) by (rewrite Hself; exact Hbs).
      assert (Hns1 : 0 <= nSlices (self m1)) by (rewrite Hself; exact Hns).
      destruct (IH m1 Hbs1 Hns1) as [Hdef' [[k Hk] [Hret' Hdoes']]].
      split; [exact Hdef' |]. split; [| split].
      * exists (S k). rewrite Hk, Hn1, <- app_assoc. reflexivity.
      * intros m' Hm'. destruct (Hret' m' Hm') as [Hn' [Hs' Hf']].
        rewrite Hn', Hn1, Hs', Hs1, Hf', Hself, <- !app_assoc.
        rewrite (stage_indices_cons c rest). repeat split.
      * exact Hdoes'.
    + split; [discriminate |]. split; [| split].
      * exists 1%nat. cbn [trace] in *. rewrite Hnames. reflexivity.
      * discriminate.
      * intros Hw. destruct (Hdoes Hw) as [m' Hm']. discriminate Hm'.
    + exfalso. exact (Hdef t eq_refl).
Qed.

(** X4: whatever the commands and however the MPI calls turn out, what
    the slices read from the char buffers that were broadcast is an
    initial part of the names of the commands, in their order: no name is
    sent twice, skipped or sent out of turn, and none is cut.  The run of
    the commands never leaves defined behaviour. *)
Theorem commands_are_sent_in_order (cs : list Command) (w : World)
        (p : Pipeline) :
  bufferSize p = 256 ->
  0 <= nSlices p ->
  let r := run (send_all cs) w p in
  (exists k, names_sent (trace r) = map command_name (firstn k cs))
  /\ (forall t, r <> Undefined t).
Proof.
  intros Hbs Hns. cbn zeta. unfold run.
  destruct (send_all_from cs w (mkMachine p []) Hbs Hns)
    as [Hdef [[k Hk] _]].
  split; [exists k; exact Hk | exact Hdef].
Qed.

Lemma commands_are_sent_in_order_witness :
  bufferSize ready = 256
  /\ 0 <= nSlices ready
  /\ exists k, names_sent
                 (trace (run (send_all [PROCESS 0; SYNC; PROCESS 1; SHUTDOWN])
                             calm ready))
               = map command_name
                     (firstn k [PROCESS 0; SYNC; PROCESS 1; SHUTDOWN]).
Proof.
  assert (H : 0 <= nSlices ready) by (cbn; lia).
  split; [reflexivity |]. split; [exact H |].
  exact (proj1 (commands_are_sent_in_order
                  [PROCESS 0; SYNC; PROCESS 1; SHUTDOWN] calm ready eq_refl H)).
Defined.

(** X5: when the member functions for a list of commands have all
    returned, the slices have read exactly the names of the commands, in
    order, and the integers broadcast are exactly the stage indices of the
    PROCESS commands, in order; the object differs from the one before at
    most in mpiError.  They do all return when every MPI call succeeds. *)
Theorem commands_round_trip (cs : list Command) (w : World) (p : Pipeline) :
  bufferSize p = 256 ->
  0 <= nSlices p ->
  (forall m, run (send_all cs) w p = Returned tt m ->
     names_sent (past m) = map command_name cs
     /\ stages_sent (past m) = stage_indices cs
     /\ set_mpiError MPI_SUCCESS (self m) = set_mpiError MPI_SUCCESS p)
  /\ (dependable w -> exists m, run (send_all cs) w p = Returned tt m).
Proof.
  intros Hbs Hns. unfold run.
  destruct (send_all_from cs w (mkMachine p []) Hbs Hns)
    as [_ [_ [Hret Hdoes]]].
  split; [exact Hret | exact Hdoes].
Qed.

Lemma commands_round_trip_witness :
  bufferSize ready = 256
  /\ 0 <= nSlices ready
  /\ exists m, run (send_all [PROCESS 0; SYNC; PROCESS 1; SHUTDOWN]) calm ready
               = Returned tt m
               /\ names_sent (past m) = ["PROCESS"; "SYNC"; "PROCESS"; "SHUTDOWN"]
               /\ stages_sent (past m) = [0; 1].
Proof.
  assert (H : 0 <= nSlices ready) by (cbn; lia).
  split; [reflexivity |]. split; [exact H |].
  destruct (commands_round_trip [PROCESS 0; SYNC; PROCESS 1; SHUTDOWN]
                                calm ready eq_refl H) as [Hret Hdoes].
  destruct Hdoes as [m Hm]; [intros h c; reflexivity |].
  exists m. split; [exact Hm |].
  destruct (Hret m Hm) as [Hn [Hs _]]. split; [exact Hn | exact Hs].
Defined.




(** X7: the array processCommand[nSlices][bufferSize] that invokeProcess
    fills is never sent: what invokeProcess does on the channel, and how it
    ends, is the same for every number of slices that is not negative. *)
Theorem invokeProcess_ignores_nSlices (iStage : Z) (w : World) (p : Pipeline)
        (n n' : Z) :
  7 < bufferSize p ->
  0 <= n ->
  0 <= n' ->
  trace (run (invokeProcess iStage) w (set_nSlices n p))
  = trace (run (invokeProcess iStage) w (set_nSlices n' p))
  /\ (forall m, run (invokeProcess iStage) w (set_nSlices n p) = Returned tt m ->
      exists m', run (invokeProcess iStage) w (set_nSlices n' p)
                 = Returned tt m').
Proof.
  intros Hbs Hn Hn'. unfold run.
  rewrite !invokeProcess_run by (cbn [self nSlices bufferSize set_nSlices]; lia).
  cbn zeta. unfold passed, fatal.
  cbn [self past bufferSize sliceIntercomm set_nSlices].
  repeat (split_status; [| split; [reflexivity | discriminate]]).
  split; [reflexivity |]. intros m _. eexists. reflexivity.
Qed.

Lemma invokeProcess_ignores_nSlices_witness :
  7 < bufferSize ready
  /\ 0 <= 0
  /\ 0 <= 40
  /\ trace (run (invokeProcess 3) calm (set_nSlices 0 ready))
     = trace (run (invokeProcess 3) calm (set_nSlices 40 ready)).
Proof.
  assert (H1 : 7 < bufferSize ready) by (cbn; lia).
  assert (H2 : 0 <= 0) by lia.
  assert (H3 : 0 <= 40) by lia.
  split; [exact H1 |]. split; [exact H2 |]. split; [exact H3 |].
  exact (proj1 (invokeProcess_ignores_nSlices 3 calm ready 0 40 H1 H2 H3)).
Defined.

(** X8: the member function for a command has no defined behaviour
    exactly when bufferSize is not greater than the length of the
    command's name, so that std::strcpy writes beyond procCommand, or, for
    PROCESS, when nSlices is negative; and then it stops before any MPI
    call. *)
Theorem send_defined_iff_buffer_holds_name (c : Command) (w : World)
        (p : Pipeline) :
  ((exists t, run (send c) w p = Undefined t)
   <-> bufferSize p <= strlen (command_name c)
       \/ (is_process c = true /\ nSlices p < 0))
  /\ (forall t, run (send c) w p = Undefined t -> calls t = []).
Proof.
  unfold run. destruct c as [| | | iStage];
    cbn [send command_name is_process]; unfold strlen; cbn [String.length].
  - destruct (Z_le_gt_dec (bufferSize p) 8) as [Hs | Hl].
    + rewrite invokeContinue_undefined by exact Hs. split.
      * split; [intros _; left; cbn; lia | intros _; eexists; reflexivity].
      * intros t Ht. injection Ht as <-. reflexivity.
    + rewrite invokeContinue_run by (cbn [self]; lia). cbn zeta. split.
      * split.
        -- intros [t Ht]. revert Ht. split_status; discriminate.
        -- intros [Hb | [Hb _]]; [cbn in Hb; lia | discriminate].
      * intros t. split_status; discriminate.
  - destruct (Z_le_gt_dec (bufferSize p) 8) as [Hs | Hl].
    + rewrite invokeShutdown_undefined by exact Hs. split.
      * split; [intros _; left; cbn; lia | intros _; eexists; reflexivity].
      * intros t Ht. injection Ht as <-. reflexivity.
    + rewrite invokeShutdown_run by (cbn [self]; lia). cbn zeta. split.
      * split.
        -- intros [t Ht]. revert Ht. split_status; discriminate.
        -- intros [Hb | [Hb _]]; [cbn in Hb; lia | discriminate].
      * intros t. split_status; discriminate.
  - destruct (Z_le_gt_dec (bufferSize p) 4) as [Hs | Hl].
    + rewrite invokeSyncSlices_undefined by exact Hs. split.
      * split; [intros _; left; cbn; lia | intros _; eexists; reflexivity].
      * intros t Ht. injection Ht as <-. reflexivity.
    + rewrite invokeSyncSlices_run by (cbn [self]; lia). cbn zeta. split.
      * split.
        -- intros [t Ht]. revert Ht. repeat split_status; discriminate.
        -- intros [Hb | [Hb _]]; [cbn in Hb; lia | discriminate].
      * intros t. repeat split_status; discriminate.
  - destruct (Z_le_gt_dec (bufferSize p) 7) as [Hs | Hl];
      [| destruct (Z_lt_ge_dec (nSlices p) 0) as [Hneg | Hpos]].
    + rewrite invokeProcess_undefined by (left; exact Hs). split.
      * split; [intros _; left; cbn; lia | intros _; eexists; reflexivity].
      * intros t Ht. injection Ht as <-. reflexivity.
    + rewrite invokeProcess_undefined by (right; exact Hneg). split.
      * split; [intros _; right; split; [reflexivity | exact Hneg]
               | intros _; eexists; reflexivity].
      * intros t Ht. injection Ht as <-. reflexivity.
    + rewrite invokeProcess_run by (cbn [self]; lia). cbn zeta. split.
      * split.
        -- intros [t Ht]. revert Ht. repeat split_status; discriminate.
        -- intros [Hb | [_ Hb]]; [cbn in Hb; lia | cbn [self] in *; lia].
      * intros t. repeat split_status; discriminate.
Qed.

(** X9: startSlices hands the workers the policy name and the run
    identifier that were set last: after setPolicyName and setRunId, the
    argument vector of MPI_Comm_spawn begins with the two strings given,
    whatever the object held before. *)
Theorem startSlices_passes_names_set_last (w : World) (p : Pipeline)
        (policyName runId : string) :
  0 <= nSlices p ->
  hd_error (calls (trace (run (setPolicyName policyName ;; setRunId runId ;;
                               startSlices) w p)))
  = Some (MPI_Comm_spawn "runSlice.py"
            [policyName; runId; "-l"; lev_c_str w (decimal (log_threshold w))]
            (nSlices p) MPI_INFO_NULL 0 MPI_COMM_WORLD).
Proof.
  intros Hns.
  change (run (setPolicyName policyName ;; setRunId runId ;; startSlices) w p)
    with (run startSlices w (set_runId runId (set_policyName policyName p))).
  unfold run. rewrite startSlices_run by exact Hns. cbn zeta.
  unfold spawn_call, stored, fatal. cbn [self past app].
  split_status; reflexivity.
Qed.

Lemma startSlices_passes_names_set_last_witness :
  0 <= nSlices ready
  /\ hd_error (calls (trace (run (setPolicyName "a.paf" ;; setRunId "r7" ;;
                                  startSlices) calm ready)))
     = Some (MPI_Comm_spawn "runSlice.py" ["a.paf"; "r7"; "-l"; "0"] 3
                            MPI_INFO_NULL 0 MPI_COMM_WORLD).
Proof.
  assert (H : 0 <= nSlices ready) by (cbn; lia).
  split; [exact H |].
  exact (startSlices_passes_names_set_last calm ready "a.paf" "r7" H).
Defined.

(** X10: invokeShutdown followed by shutdown never returns to the caller:
    SHUTDOWN is broadcast once, MPI_Finalize is called once, and the exit
    code is 0 exactly when the broadcast returned MPI_SUCCESS, and 1
    otherwise. *)
Theorem shutdownFleet_exit_code (w : World) (p : Pipeline) :
  8 < bufferSize p ->
  let b := MPI_Bcast (Chars (command_buffer w [] (bufferSize p) "SHUTDOWN"))
                     (bufferSize p) MPI_CHAR MPI_ROOT (sliceIntercomm p) in
  let st := mpi_status w [] b in
  exists code fin,
    run shutdownFleet w p
    = Exited code [EvCall b st; EvCall MPI_Finalize fin]
    /\ (code = 0 <-> st = MPI_SUCCESS)
    /\ (code = 1 <-> st <> MPI_SUCCESS).
Proof.
  intros Hbs. cbn zeta. unfold run, shutdownFleet. cbn [bind Monad_Proc].
  unfold Proc_bind at 1. rewrite invokeShutdown_run by (cbn [self]; lia).
  cbn zeta. unfold passed, fatal. cbn [self past app].
  match goal with
  | |- context [mpi_status w ?h ?c =? MPI_SUCCESS] =>
      destruct (Z.eqb_spec (mpi_status w h c) MPI_SUCCESS) as [E | E]
  end.
  - exists 0. eexists. split; [reflexivity |].
    split; split; intros H; try reflexivity; try exact E; try discriminate.
    contradiction.
  - exists 1. eexists. split; [reflexivity |].
    split; split; intros H; try reflexivity; try exact E; try discriminate.
    contradiction.
Qed.

Lemma shutdownFleet_exit_code_witness :
  8 < bufferSize ready
  /\ exists code fin,
       run shutdownFleet broken ready
       = Exited code
           [EvCall (MPI_Bcast (Chars (command_buffer broken [] 256 "SHUTDOWN"))
                              256 MPI_CHAR MPI_ROOT (Intercomm 1)) 13;
            EvCall MPI_Finalize fin]
       /\ code = 1.
Proof.
  assert (H : 8 < bufferSize ready) by (cbn; lia).
  split; [exact H |].
  destruct (shutdownFleet_exit_code broken ready H)
    as [code [fin [Hr [_ Hone]]]].
  exists code, fin. split; [exact Hr |].
  apply Hone. discriminate.
Defined.

(** ** Names of log files *)

Lemma plain_append (a b : string) :
  plain (a ++ b)%string = plain a && plain b.
Proof.
  induction a as [| c a IH]; cbn [plain append]; [reflexivity |].
  rewrite IH. now rewrite !andb_assoc.
Qed.

Lemma skip_space_plain (s : string) : plain s = true -> skip_space s = s.
Proof.
  destruct s as [| c s]; cbn [plain skip_space]; [reflexivity |].
  destruct (isspace c); [discriminate | reflexivity].
Qed.

Lemma take_word_plain (s : string) : plain s = true -> take_word s = s.
Proof.
  induction s as [| c s IH]; cbn [plain take_word]; [reflexivity |].
  destruct (isspace c); [discriminate |]. cbn [negb andb].
  destruct (Ascii.eqb c NUL); [discriminate |]. cbn [negb andb].
  intros Hs. now rewrite IH.
Qed.

Lemma extract_plain (s : string) : plain s = true -> extract s = s.
Proof.
  intros Hs. unfold extract. rewrite skip_space_plain by exact Hs.
  apply take_word_plain. exact Hs.
Qed.

Lemma as_c_string_plain (s : string) : plain s = true -> as_c_string s = s.
Proof.
  induction s as [| c s IH]; cbn [plain as_c_string]; [reflexivity |].
  destruct (Ascii.eqb c NUL); [rewrite andb_false_r; discriminate |].
  intros Hs. apply andb_prop in Hs. now rewrite IH.
Qed.

Lemma take_word_cut (a b : string) (c : ascii) :
  plain a = true -> isspace c = true ->
  take_word (a ++ String c b)%string = a.
Proof.
  intros Ha Hc. induction a as [| x a IH]; cbn [append take_word].
  - now rewrite Hc.
  - cbn [plain] in Ha. destruct (isspace x); [discriminate |].
    cbn [negb andb] in Ha. apply andb_prop in Ha. now rewrite IH.
Qed.

(** A stream that holds a word, then white space, then anything gives the
    word. *)
Lemma extract_cut (a b : string) (c : ascii) :
  plain a = true -> a <> "" -> isspace c = true ->
  extract (a ++ String c b)%string = a.
Proof.
  intros Ha Hne Hc. unfold extract.
  destruct a as [| x a]; [contradiction |].
  assert (Hx : isspace x = false).
  { cbn [plain] in Ha. destruct (isspace x); [discriminate | reflexivity]. }
  cbn [append skip_space]. rewrite Hx.
  apply (take_word_cut (String x a) b c Ha Hc).
Qed.

Lemma append_assoc (a b c : string) :
  ((a ++ b) ++ c)%string = (a ++ (b ++ c))%string.
Proof. induction a as [| x a IH]; cbn [append]; [reflexivity | now rewrite IH]. Qed.

(** The name LogUtils::initializeLogger builds for a directory. *)
Lemma pipeline_log_buffer (logdir : string) :
  String.append
    (if 0 <? strlen logdir then (("" ++ logdir) ++ "/")%string else "")
    "Pipeline.log"
  = if String.eqb logdir "" then "Pipeline.log"
    else (logdir ++ "/Pipeline.log")%string.
Proof.
  destruct logdir as [| c rest]; [reflexivity |].
  unfold strlen. cbn [String.length].
  change (0 <? Z.of_nat (S (String.length rest))) with true. cbv iota.
  cbn [append String.eqb]. rewrite append_assoc. reflexivity.
Qed.

Ltac act_steps :=
  unfold whenever;
  cbn [bind ret Monad_Act];
  unfold Act_bind, Act_ret, member, store, effect, is_set;
  cbn [LogUtils.outlog LogUtils._evbHost LogUtils.pipelineLog
       LogUtils.set_outlog LogUtils.set_pipelineLog
       outlog pipelineLog set_outlog set_pipelineLog app].

(** X11: for a directory name without white space and NUL, in local log
    mode LogUtils::initializeLogger opens the file Pipeline.log of that
    directory (of the current one when the name is empty), keeps the
    stream in outlog and hands it to setupHarnessLogging together with
    rank -1, then announces the pid and the file; a transmitter is created
    before the set-up exactly when _evbHost is not empty.  This is all it
    does. *)
Theorem pipeline_log_is_opened_in_logdir (name runId logdir : string)
        (pid : Z) (s : LogUtils.LogUtils) :
  plain logdir = true ->
  let path := if String.eqb logdir "" then "Pipeline.log"
              else (logdir ++ "/Pipeline.log")%string in
  let host := LogUtils._evbHost s in
  let lp := HarnessLog runId (-1) host (Some name) (Some path)
                       "harness.pipeline" in
  LogUtils.initializeLogger true name runId logdir pid s
  = (tt, LogUtils.mkLogUtils lp host (Some path),
     NewOfstream path
       :: (if 0 <? strlen host then [CreateTransmitter host "logging"] else [])
       ++ [FormatInt lp INFO "Pipeline Logger initialized for pid=%d" pid;
           FormatString lp INFO "replicating messages to %s" path]).
Proof.
  intros Hplain. cbn zeta. unfold LogUtils.initializeLogger. cbn zeta.
  rewrite pipeline_log_buffer.
  set (path := if String.eqb logdir "" then "Pipeline.log"
               else (logdir ++ "/Pipeline.log")%string).
  assert (Hpath : plain path = true).
  { unfold path. destruct (String.eqb logdir ""); [reflexivity |].
    rewrite plain_append, Hplain. reflexivity. }
  rewrite (extract_plain path Hpath), (as_c_string_plain path Hpath).
  act_steps.
  destruct (0 <? strlen (LogUtils._evbHost s)); reflexivity.
Qed.

Lemma pipeline_log_is_opened_in_logdir_witness :
  plain "/var/log" = true
  /\ LogUtils.outlog
       (snd (fst (LogUtils.initializeLogger true "pipe" "run1" "/var/log" 77
                                            LogUtils.constructed)))
     = Some "/var/log/Pipeline.log".
Proof.
  split; [reflexivity |].
  rewrite (pipeline_log_is_opened_in_logdir "pipe" "run1" "/var/log" 77
             LogUtils.constructed eq_refl).
  reflexivity.
Defined.

(** X12: the file name goes through a string stream and is read back
    with operator>>, which stops at white space.  When the directory name
    is a word followed by white space, the file that is opened is named by
    the word alone: neither the rest of the directory name nor
    "/Pipeline.log" is part of it. *)
Theorem pipeline_log_name_is_cut_at_white_space (name runId a b : string)
        (c : ascii) (pid : Z) (s : LogUtils.LogUtils) :
  plain a = true ->
  a <> "" ->
  isspace c = true ->
  let r := LogUtils.initializeLogger true name runId (a ++ String c b)%string
                                     pid s in
  LogUtils.outlog (snd (fst r)) = Some a
  /\ hd_error (snd r) = Some (NewOfstream a).
Proof.
  intros Ha Hne Hc. cbn zeta. unfold LogUtils.initializeLogger. cbn zeta.
  rewrite pipeline_log_buffer.
  assert (Hnonempty : String.eqb (a ++ String c b)%string "" = false)
    by (destruct a; reflexivity).
  rewrite Hnonempty, append_assoc. cbn [append].
  rewrite (extract_cut a _ c Ha Hne Hc), (as_c_string_plain a Ha).
  act_steps.
  destruct (0 <? strlen (LogUtils._evbHost s)); split; reflexivity.
Qed.

Lemma pipeline_log_name_is_cut_at_white_space_witness :
  plain "/tmp/my" = true
  /\ "/tmp/my" <> ""
  /\ isspace " "%char = true
  /\ hd_error (snd (LogUtils.initializeLogger true "pipe" "run1" "/tmp/my logs"
                                              77 LogUtils.constructed))
     = Some (NewOfstream "/tmp/my").
Proof.
  assert (Hne : "/tmp/my" <> "") by discriminate.
  split; [reflexivity |]. split; [exact Hne |]. split; [reflexivity |].
  exact (proj2 (pipeline_log_name_is_cut_at_white_space
                  "pipe" "run1" "/tmp/my" "logs" " "%char 77
                  LogUtils.constructed eq_refl Hne eq_refl)).
Defined.



(** X14: LogUtils::initializeLogger creates an event transmitter exactly
    when _evbHost is not empty, and then one only, for that host and the
    topic "logging", in either log mode and for every directory name;
    initializeSliceLogger never creates one. *)
Theorem transmitter_iff_event_host (isLocalLogMode : bool)
        (name runId logdir : string) (rank pid : Z) (s : LogUtils.LogUtils) :
  transmitters
    (snd (LogUtils.initializeLogger isLocalLogMode name runId logdir pid s))
  = (if String.eqb (LogUtils._evbHost s) "" then []
     else [(LogUtils._evbHost s, "logging")])
  /\ transmitters
       (snd (LogUtils.initializeSliceLogger isLocalLogMode name runId logdir
                                            rank pid s))
     = [].
Proof.
  destruct s as [lg evb out]. split.
  - unfold LogUtils.initializeLogger. cbn zeta.
    destruct evb as [| x evb];
      [ change (0 <? strlen "") with false
      | change (0 <? strlen (String x evb)) with true ];
      destruct isLocalLogMode, out; act_steps; reflexivity.
  - unfold LogUtils.initializeSliceLogger. cbn zeta.
    destruct isLocalLogMode, out; act_steps; reflexivity.
Qed.


(** ** Pipeline::initializeLogger *)

Lemma files_opened_app (e1 e2 : list Effect) :
  files_opened (e1 ++ e2) = files_opened e1 ++ files_opened e2.
Proof.
  induction e1 as [| e e1 IH]; cbn [files_opened app]; [reflexivity |].
  destruct e; cbn [app]; now rewrite IH.
Qed.

(** One call: the file it opens and the stream it leaves. *)
Lemma initializeLogger_once (isLocalLogMode : bool) (p : Pipeline)
      (logs : PipelineLogs) :
  let r := initializeLogger isLocalLogMode p logs in
  files_opened (snd r) = (if isLocalLogMode then ["Pipeline.log"] else [])
  /\ outlog (snd (fst r))
     = (if isLocalLogMode then Some "Pipeline.log" else outlog logs)
  /\ pipelineLog (snd (fst r))
     = HarnessLog (_runId p) (-1) (_evbHost p) None (outlog (snd (fst r)))
                  "harness.pipeline".
Proof.
  cbn zeta. unfold initializeLogger. destruct logs as [lg out].
  destruct isLocalLogMode, out; act_steps; repeat split.
Qed.

(** X17: however often Pipeline::initializeLogger is called, with
    whatever log modes and objects: every call in local mode opens the file
    Pipeline.log of the current directory anew, and no other file is ever
    opened; and once there is a stream, outlog stays set, also through
    calls in the other mode: it is set at the end exactly when it was set
    at the start or some call was in local mode. *)
Theorem initializeLogger_keeps_stream (modes : list (bool * Pipeline))
        (logs : PipelineLogs) :
  let r := initializeLogger_each modes logs in
  files_opened (snd r)
  = repeat "Pipeline.log" (count_occ bool_dec (map fst modes) true)
  /\ is_set (outlog (snd (fst r)))
     = is_set (outlog logs) || existsb fst modes.
Proof.
  cbn zeta. revert logs.
  induction modes as [| [b p] rest IH]; intros logs.
  - cbn [initializeLogger_each ret Monad_Act]. unfold Act_ret.
    cbn [snd fst map count_occ repeat files_opened existsb].
    now rewrite orb_false_r.
  - cbn [initializeLogger_each bind Monad_Act]. unfold Act_bind.
    destruct (initializeLogger_once b p logs) as [Hf [Ho _]].
    destruct (initializeLogger b p logs) as [[[] logs1] e1].
    cbn [snd fst] in Hf, Ho.
    destruct (IH logs1) as [Hf' Ho'].
    destruct (initializeLogger_each rest logs1) as [[[] logs2] e2].
    cbn [snd fst] in *. split.
    + rewrite files_opened_app, Hf, Hf'. cbn [map fst count_occ existsb].
      destruct b; cbn [app].
      * destruct (bool_dec true true) as [_ | Hne]; [reflexivity |].
        exfalso. apply Hne. reflexivity.
      * destruct (bool_dec false true) as [Heq | _];
          [discriminate Heq | reflexivity].
    + rewrite Ho', Ho. cbn [map fst existsb].
      destruct b; cbn [is_set orb].
      * now rewrite orb_true_r.
      * reflexivity.
Qed.

(** ** One log file for each slice *)

Lemma plain_cons (c : ascii) (s : string) :
  negb (isspace c) && negb (Ascii.eqb c NUL) = true -> plain s = true ->
  plain (String c s) = true.
Proof. intros Hc Hs. cbn [plain]. rewrite Hc, Hs. reflexivity. Qed.

Lemma plain_digits (d : Decimal.uint) :
  plain (NilEmpty.string_of_uint d) = true.
Proof.
  induction d as [| d IH | d IH | d IH | d IH | d IH | d IH | d IH | d IH
                  | d IH | d IH]; cbn [NilEmpty.string_of_uint];
    [reflexivity | apply plain_cons; [vm_compute; reflexivity | exact IH] ..].
Qed.

Lemma plain_decimal (z : Z) : plain (decimal z) = true.
Proof.
  unfold decimal. destruct (Z.to_int z) as [d | d];
    cbn [NilZero.string_of_int]; unfold NilZero.string_of_uint.
  - destruct d; [vm_compute; reflexivity | apply plain_digits ..].
  - apply plain_cons; [vm_compute; reflexivity |].
    destruct d; [vm_compute; reflexivity | apply plain_digits ..].
Qed.

Lemma decimal_injective (a b : Z) : decimal a = decimal b -> a = b.
Proof.
  intros H. pose proof (decimal_read_back a) as Ha.
  rewrite H, decimal_read_back in Ha. congruence.
Qed.

Lemma append_length (a b : string) :
  String.length (a ++ b)%string = (String.length a + String.length b)%nat.
Proof. induction a as [| c a IH]; cbn; [reflexivity | now rewrite IH]. Qed.

Lemma append_cancel_l (p x y : string) :
  (p ++ x)%string = (p ++ y)%string -> x = y.
Proof.
  induction p as [| c p IH]; cbn [append]; intros H; [exact H |].
  injection H as H. exact (IH H).
Qed.

Lemma append_cancel_r (s : string) :
  forall x y, (x ++ s)%string = (y ++ s)%string -> x = y.
Proof.
  induction x as [| c x IH]; intros [| d y] H; cbn [append] in H.
  - reflexivity.
  - apply (f_equal String.length) in H. cbn [String.length] in H.
    rewrite append_length in H. lia.
  - apply (f_equal String.length) in H. cbn [String.length] in H.
    rewrite append_length in H. lia.
  - injection H as -> H. f_equal. exact (IH y H).
Qed.

(** The name LogUtils::initializeSliceLogger builds for a directory and a
    rank. *)
Lemma slice_log_buffer (logdir : string) (rank : Z) :
  String.append
    (String.append
       (String.append
          (if 0 <? strlen logdir then (("" ++ logdir) ++ "/")%string else "")
          "Slice")
       (decimal rank))
    ".log"
  = ((if String.eqb logdir "" then "" else logdir ++ "/")
       ++ "Slice" ++ decimal rank ++ ".log")%string.
Proof.
  destruct logdir as [| c rest].
  - cbn [strlen String.length String.eqb]. change (0 <? Z.of_nat 0) with false.
    cbv iota. now rewrite !append_assoc.
  - unfold strlen. cbn [String.length].
    change (0 <? Z.of_nat (S (String.length rest))) with true. cbv iota.
    cbn [String.eqb]. change ("" ++ String c rest)%string with (String c rest).
    now rewrite !append_assoc.
Qed.

(** X18: for a directory name without white space and NUL, in local log mode
    initializeSliceLogger opens exactly one file, Slice<rank>.log of that
    directory (of the current one when the name is empty), with the rank
    in decimal, and keeps the stream in outlog; and slices of different
    ranks get different files. *)
Theorem slice_logs_go_to_distinct_files (name runId logdir : string)
        (pid : Z) :
  plain logdir = true ->
  let path := fun rank : Z =>
    ((if String.eqb logdir "" then "" else logdir ++ "/")
       ++ "Slice" ++ decimal rank ++ ".log")%string in
  (forall rank s,
     let r := LogUtils.initializeSliceLogger true name runId logdir rank pid s in
     files_opened (snd r) = [path rank]
     /\ LogUtils.outlog (snd (fst r)) = Some (path rank))
  /\ (forall rank rank', path rank = path rank' -> rank = rank').
Proof.
  intros Hplain. cbn zeta. split.
  - intros rank s. unfold LogUtils.initializeSliceLogger. cbn zeta.
    rewrite slice_log_buffer.
    set (path := ((if String.eqb logdir "" then "" else logdir ++ "/")
                    ++ "Slice" ++ decimal rank ++ ".log")%string).
    assert (Hpath : plain path = true).
    { unfold path. rewrite !plain_append, plain_decimal.
      destruct (String.eqb logdir ""); [reflexivity |].
      rewrite plain_append, Hplain. reflexivity. }
    rewrite (extract_plain path Hpath), (as_c_string_plain path Hpath).
    destruct s as [lg evb out]. act_steps. split; reflexivity.
  - intros rank rank' H.
    apply append_cancel_l in H. apply append_cancel_l in H.
    apply append_cancel_r in H. apply decimal_injective. exact H.
Qed.

Lemma slice_logs_go_to_distinct_files_witness :
  plain "logs" = true
  /\ files_opened
       (snd (LogUtils.initializeSliceLogger true "pipe" "run1" "logs" 12 77
                                            LogUtils.constructed))
     = ["logs/Slice12.log"].
Proof.
  split; [reflexivity |].
  exact (proj1 (proj1 (slice_logs_go_to_distinct_files "pipe" "run1" "logs" 77
                         eq_refl) 12 LogUtils.constructed)).
Defined.
